(** * Airflow MCP server: URL resolver and log filter pipeline

    A shallow embedding of [airflow_mcp/url_utils.py], [airflow_mcp/validation.py],
    [airflow_mcp/tools/task_logs.py] and [_coerce_int] of
    [airflow_mcp/tools/_common.py], together with the parts of the Python
    standard library they call ([str] methods, the UTF-8 codec, [re] for the three
    level patterns, [urllib.parse]).

    Conventions.
    - A Python [str] is a list of Unicode scalar values ([uchar]); [bytes] is a
      list of numbers below 256; a Python [int] is a [Z].
    - A [dict] whose iteration order matters is an association list in
      insertion order.
    - A function that raises returns [Err e]; one constructor of
      [AirflowToolError] per raise site of the resolver, the builder and
      the validators. *)

From Stdlib Require Import ZArith NArith Lia Bool Ascii String DecimalZ DecimalPos DecimalFacts Btauto.
From stdpp Require Import base numbers option list strings gmap sorting.

Local Open Scope N_scope.

(** ** Python values *)

Module Py.

(** A Unicode scalar value: a code point outside the surrogate range.
    [str.encode()] is defined exactly on strings of scalar values. *)
Definition is_scalar (n : N) : bool :=
  (n <? 0xD800) || ((0xDFFF <? n) && (n <=? 0x10FFFF)).

Record uchar : Type := UChar { cp : N; cp_scalar : is_scalar cp = true }.

Definition mk_uchar (n : N) : option uchar :=
  (if is_scalar n as b return (is_scalar n = b → option uchar)
   then λ H, Some (UChar n H)
   else λ _, None) eq_refl.

Definition NUL : uchar := UChar 0 eq_refl.
Definition REPLACEMENT : uchar := UChar 0xFFFD eq_refl.

(** [chr(n)] for a code point known to be a scalar value. *)
Definition chr (n : N) : uchar := default NUL (mk_uchar n).

Definition str : Type := list uchar.
Definition bytes : Type := list N.

Definition of_ascii (a : ascii) : uchar := chr (N_of_ascii a).

(** A string literal of the source, written as a Rocq string of ASCII. *)
Definition py (s : string) : str := of_ascii <$> String.list_ascii_of_string s.
Arguments py s%_string_scope.

Definition codes (s : str) : list N := cp <$> s.

(** Comparison of a character with an ASCII literal, and [==] on strings. *)
Definition is_ch (a : ascii) (c : uchar) : bool := cp c =? N_of_ascii a.

Fixpoint str_eqb (a b : str) : bool :=
  match a, b with
  | [], [] => true
  | x :: a', y :: b' => (cp x =? cp y) && str_eqb a' b'
  | _, _ => false
  end.

(** The string of one line feed. *)
Definition NL : str := [chr 10].

(** [len(x)] as a Python int. *)
Definition len {A} (l : list A) : Z := Z.of_nat (length l).

(** Truthiness of a string. *)
Definition truthy {A} (l : list A) : bool := match l with [] => false | _ => true end.

(** [c in chars] for a literal set of ASCII characters. *)
Definition in_chars (chars : string) (c : uchar) : bool :=
  existsb (λ a, is_ch a c) (String.list_ascii_of_string chars).
Arguments in_chars chars%_string_scope c.

Definition is_ascii (c : uchar) : bool := cp c <? 128.
Definition ascii_upper (c : uchar) : bool := (65 <=? cp c) && (cp c <=? 90).
Definition ascii_lower (c : uchar) : bool := (97 <=? cp c) && (cp c <=? 122).
Definition ascii_digit (c : uchar) : bool := (48 <=? cp c) && (cp c <=? 57).
Definition ascii_alpha (c : uchar) : bool := ascii_upper c || ascii_lower c.
Definition ascii_alnum (c : uchar) : bool := ascii_alpha c || ascii_digit c.

(** [str.isspace()] of one character (the whitespace of the Unicode
    character database, a fixed list). *)
Definition isspace (c : uchar) : bool :=
  let n := cp c in
  ((9 <=? n) && (n <=? 13)) || ((0x1C <=? n) && (n <=? 0x20)) || (n =? 0x85) || (n =? 0xA0)
  || (n =? 0x1680) || ((0x2000 <=? n) && (n <=? 0x200A)) || (n =? 0x2028) || (n =? 0x2029)
  || (n =? 0x202F) || (n =? 0x205F) || (n =? 0x3000).

(** [s.lstrip(P)], [s.rstrip(P)], [s.strip(P)]. *)
Fixpoint lstrip (P : uchar → bool) (s : str) : str :=
  match s with
  | c :: t => if P c then lstrip P t else s
  | [] => []
  end.
Definition rstrip (P : uchar → bool) (s : str) : str := reverse (lstrip P (reverse s)).
Definition strip (P : uchar → bool) (s : str) : str := rstrip P (lstrip P s).

(** [s.startswith(p)]. *)
Fixpoint startswith (p s : str) : bool :=
  match p, s with
  | [], _ => true
  | x :: p', y :: s' => (cp x =? cp y) && startswith p' s'
  | _ :: _, [] => false
  end.

(** [sep.join(parts)]. *)
Fixpoint join (sep : str) (parts : list str) : str :=
  match parts with
  | [] => []
  | [x] => x
  | x :: rest => x ++ sep ++ join sep rest
  end.

(** [s.partition(c)] for a one-character separator: [None] when [c] does
    not occur (Python returns [s] and two empty strings). *)
Fixpoint partition (P : uchar → bool) (s : str) : option (str * str) :=
  match s with
  | [] => None
  | c :: t =>
      if P c then Some ([], t)
      else match partition P t with
           | Some (a, b) => Some (c :: a, b)
           | None => None
           end
  end.

(** [s.rpartition(c)]: split at the last occurrence. *)
Definition rpartition (P : uchar → bool) (s : str) : option (str * str) :=
  match partition P (reverse s) with
  | Some (b, a) => Some (reverse a, reverse b)
  | None => None
  end.

(** [s.split(c)] for a one-character separator. *)
Fixpoint split (P : uchar → bool) (s : str) : list str :=
  match s with
  | [] => [[]]
  | c :: t =>
      if P c then [] :: split P t
      else match split P t with
           | l :: ls => (c :: l) :: ls
           | [] => [[c]]
           end
  end.

(** [s.replace(c, empty)]: every occurrence of the character removed. *)
Definition remove_chars (P : uchar → bool) (s : str) : str := filter (λ c, P c = false) s.

(** Line boundaries of [str.splitlines()]. *)
Definition is_linebreak (c : uchar) : bool :=
  let n := cp c in
  ((10 <=? n) && (n <=? 13)) || ((0x1C <=? n) && (n <=? 0x1E)) || (n =? 0x85)
  || (n =? 0x2028) || (n =? 0x2029).

(** [s.splitlines()]: lines without their terminators; CR LF is one
    terminator; no empty last line after a final terminator. *)
Fixpoint splitlines (s : str) : list str :=
  match s with
  | [] => []
  | c :: t =>
      if is_linebreak c then
        [] :: match t with
              | c2 :: t2 => if is_ch "013" c && is_ch "010" c2 then splitlines t2 else splitlines t
              | [] => []
              end
      else match splitlines t with
           | l :: ls => (c :: l) :: ls
           | [] => [[c]]
           end
  end.


(** No character of [s] satisfies [P]. *)
Definition avoids (P : uchar → bool) (s : str) : Prop := Forall (λ c, P c = false) s.

(** Slices [l[a:]] and [l[:b]] with Python's treatment of negative bounds. *)
Definition slice_bound {A} (l : list A) (i : Z) : nat :=
  Z.to_nat (if (i <? 0)%Z then Z.max (len l + i) 0 else i).
Definition slice_from {A} (a : Z) (l : list A) : list A := drop (slice_bound l a) l.
Definition slice_to {A} (b : Z) (l : list A) : list A := take (slice_bound l b) l.

(** [l[i]] for [0 <= i]; [None] stands for IndexError. *)
Definition getitem {A} (l : list A) (i : Z) : option A :=
  if (i <? 0)%Z then l !! Z.to_nat (len l + i) else l !! Z.to_nat i.

(** *** The UTF-8 codec *)

Definition utf8_char (n : N) : bytes :=
  if n <? 0x80 then [n]
  else if n <? 0x800 then [0xC0 + n / 64; 0x80 + n mod 64]
  else if n <? 0x10000 then [0xE0 + n / 4096; 0x80 + (n / 64) mod 64; 0x80 + n mod 64]
  else [0xF0 + n / 262144; 0x80 + (n / 4096) mod 64; 0x80 + (n / 64) mod 64; 0x80 + n mod 64].

(** [s.encode()]. *)
Definition encode (s : str) : bytes := s ≫= (λ c, utf8_char (cp c)).

Inductive errors : Type := Ignore | Replace.

Definition on_error (e : errors) (rest : str) : str :=
  match e with Ignore => rest | Replace => REPLACEMENT :: rest end.

Definition is_cont (b : N) : bool := (0x80 <=? b) && (b <=? 0xBF).

(** Second byte of a three-byte sequence: E0 needs A0..BF (no overlong
    form), ED needs 80..9F (no surrogate). *)
Definition second_of_3 (b0 b1 : N) : bool :=
  if b0 =? 0xE0 then (0xA0 <=? b1) && (b1 <=? 0xBF)
  else if b0 =? 0xED then (0x80 <=? b1) && (b1 <=? 0x9F)
  else is_cont b1.

(** Second byte of a four-byte sequence: F0 needs 90..BF, F4 needs 80..8F. *)
Definition second_of_4 (b0 b1 : N) : bool :=
  if b0 =? 0xF0 then (0x90 <=? b1) && (b1 <=? 0xBF)
  else if b0 =? 0xF4 then (0x80 <=? b1) && (b1 <=? 0x8F)
  else is_cont b1.

Definition emit (n : N) (rest : str) : str :=
  match mk_uchar n with Some c => c :: rest | None => rest end.

(** [bs.decode("utf-8", errors=e)] for [e] one of "ignore" and "replace":
    an ill-formed sequence is dropped up to its longest well-formed
    prefix (one byte at least), replaced by U+FFFD under "replace", and
    decoding resumes right after it. *)
Fixpoint decode (e : errors) (bs : bytes) : str :=
  match bs with
  | [] => []
  | b0 :: r0 =>
      if b0 <? 0x80 then emit b0 (decode e r0)
      else if (0xC2 <=? b0) && (b0 <=? 0xDF) then
        match r0 with
        | b1 :: r1 =>
            if is_cont b1 then emit ((b0 - 0xC0) * 64 + (b1 - 0x80)) (decode e r1)
            else on_error e (decode e r0)
        | [] => on_error e []
        end
      else if (0xE0 <=? b0) && (b0 <=? 0xEF) then
        match r0 with
        | b1 :: r1 =>
            if second_of_3 b0 b1 then
              match r1 with
              | b2 :: r2 =>
                  if is_cont b2
                  then emit ((b0 - 0xE0) * 4096 + (b1 - 0x80) * 64 + (b2 - 0x80)) (decode e r2)
                  else on_error e (decode e r1)
              | [] => on_error e []
              end
            else on_error e (decode e r0)
        | [] => on_error e []
        end
      else if (0xF0 <=? b0) && (b0 <=? 0xF4) then
        match r0 with
        | b1 :: r1 =>
            if second_of_4 b0 b1 then
              match r1 with
              | b2 :: r2 =>
                  if is_cont b2 then
                    match r2 with
                    | b3 :: r3 =>
                        if is_cont b3
                        then emit ((b0 - 0xF0) * 262144 + (b1 - 0x80) * 4096
                                   + (b2 - 0x80) * 64 + (b3 - 0x80)) (decode e r3)
                        else on_error e (decode e r2)
                    | [] => on_error e []
                    end
                  else on_error e (decode e r1)
              | [] => on_error e []
              end
            else on_error e (decode e r0)
        | [] => on_error e []
        end
      else on_error e (decode e r0)
  end.

End Py.

(** ** Tables of the Unicode character database that the source consults
    through the standard library and that are no part of the repository:
    they are parameters of the development. Every function below behaves
    concretely on ASCII input and asks the table only beyond it. *)

Class Unicode : Type := {
  (** [c.isalnum()] for a code point above 127 (the word characters of [re]). *)
  isalnum_hi : N → bool;
  (** [s.lower()] for a string that is not pure ASCII. *)
  lower_hi : Py.str → Py.str;
  (** whether [urllib.parse._checknetloc] accepts a non-ASCII netloc
      (it rejects one whose NFKC form gains one of [/?#@:]). *)
  nfkc_netloc_ok : Py.str → bool;
  (** whether [urllib.parse._check_bracketed_host] accepts the host of a
      bracketed netloc (an IPv6 or IPvFuture literal). *)
  bracketed_host_ok : Py.str → bool;
  (** [int(s)] for a string that is not pure ASCII ([None]: ValueError). *)
  int_hi : Py.str → option Z
}.

(** The tables of a Python without any character beyond ASCII: enough
    for every concrete run below, whose inputs are ASCII. *)
Definition ascii_only : Unicode := {|
  isalnum_hi := λ _, false;
  lower_hi := λ s, s;
  nfkc_netloc_ok := λ _, true;
  bracketed_host_ok := λ _, false;
  int_hi := λ _, None
|}.

(** ** The regular expressions of the log filter *)

Module Re.
Import Py.

(** The fragment of [re] syntax the three level patterns use. *)
Inductive regex : Type :=
| Lit (s : string)            (* a literal word, matched under re.I *)
| Alt (r1 r2 : regex)         (* r1|r2 *)
| Seq (r1 r2 : regex)         (* r1 r2 *)
| Opt (r : regex)             (* (r)? *)
| Bnd.                        (* \b *)

Section matcher.
Context `{Unicode}.

(** [\w] of a str pattern: alphanumeric or underscore. *)
Definition is_word (c : uchar) : bool :=
  if is_ascii c then ascii_alnum c || is_ch "_" c else isalnum_hi (cp c).

Definition ascii_tolower (n : N) : N := if (65 <=? n) && (n <=? 90) then n + 32 else n.

(** A literal ASCII character [a] of a pattern compiled with re.I
    matches [c] when their lower cases agree; I also matches U+0130 and
    U+0131, K also U+212A, S also U+017F (the case-insensitive
    equivalents of the pattern compiler). *)
Definition ci_match (a : ascii) (c : uchar) : bool :=
  let p := ascii_tolower (N_of_ascii a) in
  let n := cp c in
  (ascii_tolower n =? p)
  || ((p =? 105) && ((n =? 0x130) || (n =? 0x131)))
  || ((p =? 107) && (n =? 0x212A))
  || ((p =? 115) && (n =? 0x17F)).

(** [\b] between the character before the position and the one at it. *)
Definition at_boundary (prev : option uchar) (s : str) : bool :=
  let thatp := match prev with Some c => is_word c | None => false end in
  let thisp := match s with c :: _ => is_word c | [] => false end in
  negb (eqb thisp thatp).

Fixpoint match_lit (w : list ascii) (prev : option uchar) (s : str) : list (option uchar * str) :=
  match w with
  | [] => [(prev, s)]
  | a :: w' =>
      match s with
      | c :: s' => if ci_match a c then match_lit w' (Some c) s' else []
      | [] => []
      end
  end.

(** All ways [r] matches at the start of [s], each as the state after
    the match: the last character consumed so far and the rest. The
    backtracking matcher of [re] finds a match exactly when there is one. *)
Fixpoint matches (r : regex) (prev : option uchar) (s : str) : list (option uchar * str) :=
  match r with
  | Lit w => match_lit (String.list_ascii_of_string w) prev s
  | Alt r1 r2 => matches r1 prev s ++ matches r2 prev s
  | Seq r1 r2 => matches r1 prev s ≫= (λ st, matches r2 st.1 st.2)
  | Opt r1 => matches r1 prev s ++ [(prev, s)]
  | Bnd => if at_boundary prev s then [(prev, s)] else []
  end.

Fixpoint search_from (r : regex) (prev : option uchar) (s : str) : bool :=
  truthy (matches r prev s)
  || match s with
     | c :: s' => search_from r (Some c) s'
     | [] => false
     end.

(** [pattern.search(line)] as a truth value. *)
Definition search (r : regex) (line : str) : bool := search_from r None line.

End matcher.
End Re.

(** ** tools/task_logs.py *)

Module TaskLogs.
Import Py Re.

Record stats : Type := Stats {
  bytes_returned : Z;
  original_lines : Z;
  returned_lines : Z;
  match_count : Z
}.

Definition word (r : regex) : regex := Seq Bnd (Seq r Bnd).

(** The [patterns] dict of [_filter_logs]. *)
Definition pattern_error : regex :=
  word (Alt (Lit "ERROR") (Alt (Lit "CRITICAL") (Alt (Lit "FATAL")
       (Alt (Lit "Exception") (Lit "Traceback"))))).
Definition pattern_warning : regex :=
  word (Alt (Seq (Lit "WARN") (Opt (Lit "ING"))) (Alt (Lit "ERROR")
       (Alt (Lit "CRITICAL") (Lit "FATAL")))).
Definition pattern_info : regex :=
  word (Alt (Lit "INFO") (Alt (Lit "WARN") (Alt (Lit "ERROR") (Lit "CRITICAL")))).

Definition patterns_get (filter_level : str) : option regex :=
  if str_eqb filter_level (py "error") then Some pattern_error
  else if str_eqb filter_level (py "warning") then Some pattern_warning
  else if str_eqb filter_level (py "info") then Some pattern_info
  else None.

(** [range(start, end)]. *)
Definition range (start stop : Z) : list Z := seqZ start (stop - start).

(** [[i for i, line in enumerate(lines) if pattern.search(line)]]. *)
Definition matched_indices `{Unicode} (pattern : regex) (lines : list str) : list Z :=
  (λ p, p.1) <$> filter (λ p, search pattern p.2 = true) (zip (seqZ 0 (len lines)) lines).

(** The loop of step 3: [expanded_indices.update(range(start, end))] for
    each match. *)
Definition expand (n_lines context_lines : Z) (matched : list Z) : gset Z :=
  foldl (λ (acc : gset Z) idx,
           let start := Z.max 0 (idx - context_lines) in
           let stop := Z.min n_lines (idx + context_lines + 1) in
           acc ∪ list_to_set (range start stop))
        ∅ matched.

(** [sorted(s)] of a set of ints. *)
Definition sorted (s : gset Z) : list Z := merge_sort Z.le (elements s).

(** [[lines[i] for i in indices]]; every index met is in range (lemma
    [pick_length] below), so no IndexError is modelled. *)
Definition pick (lines : list str) (indices : list Z) : list str :=
  omap (getitem lines) indices.

(** Steps 2 and 3 of [_filter_logs]: the lines kept and [match_count]. *)
Definition filter_lines `{Unicode} (lines : list str) (filter_level : option str)
    (context_lines : option Z) : list str * Z :=
  match filter_level with
  | Some level =>
      if truthy level then
        match patterns_get level with
        | Some pattern =>
            let matched := matched_indices pattern lines in
            let match_count := len matched in
            match context_lines with
            | Some c =>
                if negb (c =? 0)%Z && truthy matched
                then (pick lines (sorted (expand (len lines) c matched)), match_count)
                else (pick lines matched, match_count)
            | None => (pick lines matched, match_count)
            end
        | None => (lines, 0%Z)
        end
      else (lines, 0%Z)
  | None => (lines, 0%Z)
  end.

(** Step 4 of [_filter_logs]: the UTF-8 size cap. *)
Definition size_cap (result : str) (max_bytes : Z) : str * bool :=
  if (max_bytes <? len (encode result))%Z
  then (decode Ignore (slice_to max_bytes (encode result)), true)
  else (result, false).

Definition _filter_logs `{Unicode} (raw_log : str) (filter_level : option str)
    (context_lines tail_lines : option Z) (max_bytes : Z) : str * bool * stats :=
  let lines := splitlines raw_log in
  let original_count := len lines in
  let zero := ([], false, Stats 0 original_count 0 0) in
  let continue (lines : list str) :=
    let '(lines, match_count) := filter_lines lines filter_level context_lines in
    let '(result, truncated) := size_cap (join NL lines) max_bytes in
    (result, truncated,
     Stats (len (encode result)) original_count (len lines) match_count) in
  match tail_lines with
  | Some t =>
      if (0 <=? t)%Z then
        if (t =? 0)%Z then zero else continue (slice_from (- t) lines)
      else continue lines
  | None => continue lines
  end.

(** *** The filter stages as the specification words them *)

(** [enumerate(lines)]. *)
Definition enumerate (lines : list str) : list (Z * str) := zip (seqZ 0 (len lines)) lines.

(** The lines whose index satisfies [P], in their order. *)
Definition keep_where (P : Z → bool) (lines : list str) : list str :=
  (λ p, p.2) <$> filter (λ p, P p.1 = true) (enumerate lines).

(** Index [j] lies in the window [max(0, i-c) .. min(last, i+c)] of a
    match [i], where [last] is [n - 1]. *)
Definition in_window (n c : Z) (matched : list Z) (j : Z) : bool :=
  existsb (λ i, (Z.max 0 (i - c) <=? j)%Z && (j <=? Z.min (n - 1) (i + c))%Z) matched.

(** *** Host-segmented responses *)

(** One element of a segmented response, as [_flatten_log_segments]
    tells them apart. A host or a text is a [str] or [None]. *)
Inductive segment : Type :=
| Pair (host text : option str)   (* a list or tuple of two items or more *)
| Single (host : option str)      (* a list or tuple of one item *)
| Empty                           (* an empty list or tuple *)
| Bare (text : option str).       (* anything else: it is the text *)

Definition _normalize_log_host (host : option str) : str :=
  match host with
  | None => py "unknown-host"
  | Some h =>
      let host_text := strip isspace h in
      if truthy host_text then host_text else py "unknown-host"
  end.

Definition segment_host_text (raw_segment : segment) : option str * option str :=
  match raw_segment with
  | Pair host text => (host, text)
  | Single host => (host, Some [])
  | Empty => (None, Some [])
  | Bare text => (None, text)
  end.

(** What one iteration of the loop appends to [parts]; [idx] only
    matters through its truth value. *)
Definition segment_parts (first : bool) (raw_segment : segment) : list str :=
  let '(host, text) := segment_host_text raw_segment in
  let text_value := default [] text in
  (if first then [] else [[]])
  ++ [py "--- [" ++ _normalize_log_host host ++ py "] ---"]
  ++ (if truthy text_value then [rstrip (is_ch "010") text_value] else []).

Fixpoint flatten_parts (first : bool) (segments : list segment) : list str :=
  match segments with
  | [] => []
  | seg :: rest => segment_parts first seg ++ flatten_parts false rest
  end.

(** [_flatten_log_segments] on a list or tuple. *)
Definition _flatten_log_segments (segments : list segment) : str :=
  strip (is_ch "010") (join NL (flatten_parts true segments)).

(** The outcomes of [ast.literal_eval]: a list or tuple, another
    literal, or one of the exceptions its documentation lists. *)
Inductive literal_eval_result : Type :=
| LitSequence (items : list segment)
| LitOther
| LitValueError
| LitSyntaxError
| LitTypeError
| LitMemoryError
| LitRecursionError.

(** [ast.literal_eval] belongs to the standard library: a parameter. *)
Class Ast : Type := { literal_eval : str → literal_eval_result }.

(** What the log endpoint of the client returns, after
    [getattr(response, "content", response)] for the cases other than [str]. *)
Inductive response : Type :=
| RStr (s : str)
| RBytes (content : bytes)
| RSequence (content : list segment)
| RNone
| ROther (as_str : str).          (* any other object, with its [str()] *)

Inductive exception : Type := TypeError | MemoryError | RecursionError.

Definition _coerce_log_text `{Ast} (resp : response) : exception + str :=
  match resp with
  | RStr s =>
      if startswith (py "[('") (strip isspace s) then
        match literal_eval s with
        | LitSequence parsed => inr (_flatten_log_segments parsed)
        | LitOther => inr s
        | LitValueError | LitSyntaxError => inr s
        | LitTypeError => inl TypeError
        | LitMemoryError => inl MemoryError
        | LitRecursionError => inl RecursionError
        end
      else inr s
  | RBytes content => inr (decode Replace content)
  | RSequence content => inr (_flatten_log_segments content)
  | RNone => inr []
  | ROther as_str => inr as_str
  end.

(** The outcomes of [ast.literal_eval] on the inputs of the concrete
    runs below, as CPython gives them: a well-formed list of pairs, and
    a list whose second item is a set display holding a list, which is
    not hashable (TypeError). Any other input is taken as a syntax error. *)
Definition ast_sample : Ast := {|
  literal_eval s :=
    if str_eqb s (py "[('h1', 'A'), ('', 'C')]")
    then LitSequence [Pair (Some (py "h1")) (Some (py "A")); Pair (Some []) (Some (py "C"))]
    else if str_eqb s (py "[('h', {[]})]") then LitTypeError
    else LitSyntaxError
|}.

(** The flattened text as the specification words it: before the text
    of each segment a divider line with its host; segments separated by
    one blank line. *)
Definition divider (host : option str) : str :=
  py "--- [" ++ _normalize_log_host host ++ py "] ---".

Definition render_segment (raw_segment : segment) : str :=
  let '(host, text) := segment_host_text raw_segment in
  let text_value := default [] text in
  divider host ++ (if truthy text_value then NL ++ rstrip (is_ch "010") text_value else []).

Definition flatten_spec (segments : list segment) : str :=
  strip (is_ch "010") (join (NL ++ NL) (render_segment <$> segments)).

(** *** The filter pipeline of [get_task_instance_logs] (from the
    coerced log text on) *)

Definition AUTO_TAIL_CHARS : Z := 100000000.
Definition AUTO_TAIL_LINES : Z := 10000.

Definition auto_tail (log_text : str) : str * bool :=
  if truthy log_text && (AUTO_TAIL_CHARS <? len log_text)%Z
  then (join NL (slice_from (- AUTO_TAIL_LINES) (splitlines log_text)), true)
  else (log_text, false).

(** [None if v is None else max(0, min(v, hi))]. *)
Definition clamp (hi : Z) (v : option Z) : option Z := (λ n, Z.max 0 (Z.min n hi)) <$> v.

Record payload : Type := Payload {
  log : str;
  truncated : bool;
  auto_tailed : bool;
  log_stats : stats;
  filters_context_lines : option Z;
  filters_tail_lines : option Z
}.

(** [tail_lines_int] and [context_lines_int] are the results of
    [_coerce_int]. *)
Definition filter_pipeline `{Unicode} (log_text : str) (filter_level : option str)
    (context_lines_int tail_lines_int : option Z) (max_bytes : Z) : payload :=
  let '(log_text, auto_tailed) := auto_tail log_text in
  let tail_lines_clamped := clamp 100000 tail_lines_int in
  let context_lines_clamped := clamp 1000 context_lines_int in
  let '(filtered_log, truncated, stats) :=
    _filter_logs log_text filter_level context_lines_clamped tail_lines_clamped max_bytes in
  Payload filtered_log truncated auto_tailed stats context_lines_clamped tail_lines_clamped.

End TaskLogs.

(** ** urllib.parse (CPython 3.11), [int()] and [str()] of an int *)

Module Urllib.
Import Py.

Record ParseResult : Type := {
  scheme : str; netloc : str; path : str; params : str; query : str; fragment : str
}.

(** [s.partition(c)] with Python's result when [c] does not occur. *)
Definition partition3 (P : uchar → bool) (s : str) : str * bool * str :=
  match partition P s with
  | Some (a, b) => (a, true, b)
  | None => (s, false, [])
  end.

(** [s.rpartition(c)[2]]. *)
Definition after_last (P : uchar → bool) (s : str) : str :=
  match rpartition P s with
  | Some (_, b) => b
  | None => s
  end.

Definition contains (P : uchar → bool) (s : str) : bool := existsb P s.

Definition to_lower_ascii (c : uchar) : uchar := if ascii_upper c then chr (cp c + 32) else c.

Definition scheme_char (c : uchar) : bool := ascii_alnum c || in_chars "+-." c.

(** [_WHATWG_C0_CONTROL_OR_SPACE] and [_UNSAFE_URL_BYTES_TO_REMOVE]. *)
Definition c0_control_or_space (c : uchar) : bool := cp c <=? 0x20.
Definition unsafe_url_byte (c : uchar) : bool := (cp c =? 9) || (cp c =? 10) || (cp c =? 13).

Definition uses_params : list str :=
  [[]; py "ftp"; py "hdl"; py "prospero"; py "http"; py "imap"; py "https"; py "shttp";
   py "rtsp"; py "rtspu"; py "sip"; py "sips"; py "mms"; py "sftp"; py "tel"].

(** [_splitnetloc(url, 2)] on the text after the two slashes. *)
Fixpoint _splitnetloc (rest : str) : str * str :=
  match rest with
  | [] => ([], [])
  | c :: t =>
      if in_chars "/?#" c then ([], rest)
      else let '(n, r) := _splitnetloc t in (c :: n, r)
  end.

Definition _splitparams (url : str) : str * str :=
  match rpartition (is_ch "/") url with
  | Some (dir, last) =>
      match partition (is_ch ";") last with
      | Some (name, prm) => (dir ++ py "/" ++ name, prm)
      | None => (url, [])
      end
  | None =>
      match partition (is_ch ";") url with
      | Some (name, prm) => (name, prm)
      | None => (url, [])
      end
  end.

Section unicode.
Context `{Unicode}.

(** [s.lower()]. *)
Definition lower (s : str) : str :=
  if forallb is_ascii s then to_lower_ascii <$> s else lower_hi s.

(** [_check_bracketed_netloc]: [false] stands for ValueError. *)
Definition _check_bracketed_netloc (netloc : str) : bool :=
  let hostname_and_port := after_last (is_ch "@") netloc in
  let '(before_bracket, have_open_br, bracketed) := partition3 (is_ch "[") hostname_and_port in
  if have_open_br then
    if truthy before_bracket then false
    else
      let '(hostname, _, port) := partition3 (is_ch "]") bracketed in
      if truthy port && negb (startswith (py ":") port) then false
      else bracketed_host_ok hostname
  else
    let '(hostname, _, _) := partition3 (is_ch ":") hostname_and_port in
    bracketed_host_ok hostname.

Definition _checknetloc (netloc : str) : bool :=
  if negb (truthy netloc) || forallb is_ascii netloc then true else nfkc_netloc_ok netloc.

(** [urlsplit(url)]: scheme, netloc, path, query, fragment; [None]
    stands for ValueError. *)
Definition urlsplit (url : str) : option (str * str * str * str * str) :=
  let url := lstrip c0_control_or_space url in
  let url := remove_chars unsafe_url_byte url in
  let '(scheme, url) :=
    match partition (is_ch ":") url with
    | Some (before, after) =>
        if truthy before && match before with c :: _ => ascii_alpha c | [] => false end
           && forallb scheme_char before
        then (to_lower_ascii <$> before, after)
        else ([], url)
    | None => ([], url)
    end in
  let after_netloc :=
    if startswith (py "//") url then
      let '(netloc, rest) := _splitnetloc (drop 2 url) in
      let open_br := contains (is_ch "[") netloc in
      let close_br := contains (is_ch "]") netloc in
      if (open_br && negb close_br) || (close_br && negb open_br) then None
      else if open_br && close_br && negb (_check_bracketed_netloc netloc) then None
      else Some (netloc, rest)
    else Some ([], url) in
  match after_netloc with
  | None => None
  | Some (netloc, url) =>
      let '(url, _, fragment) := partition3 (is_ch "#") url in
      let '(url, _, query) := partition3 (is_ch "?") url in
      if _checknetloc netloc then Some (scheme, netloc, url, query, fragment) else None
  end.

Definition urlparse (url : str) : option ParseResult :=
  match urlsplit url with
  | None => None
  | Some (scheme, netloc, url, query, fragment) =>
      let '(url, params) :=
        if existsb (str_eqb scheme) uses_params && contains (is_ch ";") url
        then _splitparams url else (url, []) in
      Some {| scheme := scheme; netloc := netloc; path := url; params := params;
              query := query; fragment := fragment |}
  end.

(** The [hostname] property of a parse result. *)
Definition hostname (r : ParseResult) : option str :=
  let hostinfo := after_last (is_ch "@") (netloc r) in
  let '(_, have_open_br, bracketed) := partition3 (is_ch "[") hostinfo in
  let host :=
    if have_open_br then (partition3 (is_ch "]") bracketed).1.1
    else (partition3 (is_ch ":") hostinfo).1.1 in
  if truthy host then
    let '(host, percent, zone) := partition3 (is_ch "%") host in
    Some (lower host ++ (if percent then py "%" else []) ++ zone)
  else None.

(** [int(s)]; [None] stands for ValueError. The interpreter's limit on
    the number of digits of a conversion between [int] and [str]
    ([sys.set_int_max_str_digits]) is not modelled: the model is the
    interpreter with that limit switched off. *)
Definition c_isspace (c : uchar) : bool := ((9 <=? cp c) && (cp c <=? 13)) || (cp c =? 32).

Fixpoint int_digits (after_digit : bool) (acc : Z) (s : str) : option Z :=
  match s with
  | [] => if after_digit then Some acc else None
  | c :: t =>
      if ascii_digit c then int_digits true (10 * acc + Z.of_N (cp c - 48))%Z t
      else if is_ch "_" c && after_digit then int_digits false acc t
      else None
  end.

Definition int (s : str) : option Z :=
  if forallb is_ascii s then
    match strip c_isspace s with
    | c :: t =>
        if is_ch "-" c then Z.opp <$> int_digits false 0 t
        else if is_ch "+" c then int_digits false 0 t
        else int_digits false 0 (c :: t)
    | [] => None
    end
  else int_hi s.

End unicode.




(** *** Percent-encoding *)

Definition always_safe (b : N) : bool :=
  ((65 <=? b) && (b <=? 90)) || ((97 <=? b) && (b <=? 122)) || ((48 <=? b) && (b <=? 57))
  || (b =? 95) || (b =? 46) || (b =? 45) || (b =? 126).

Definition hex_upper (d : N) : uchar := chr (if d <? 10 then 48 + d else 55 + d).

(** The quoter of [quote_from_bytes] with no extra safe byte:
    ['%{:02X}'.format(b)] for a byte that is not always safe. *)
Definition quote_byte (b : N) : str :=
  if always_safe b then [chr b] else py "%" ++ [hex_upper (b / 16); hex_upper (b mod 16)].

(** [quote(s, safe='')]: no character is safe beyond the always-safe ones. *)
Definition quote (s : str) : str := encode s ≫= quote_byte.

Definition hex_value (b : N) : option N :=
  if (48 <=? b) && (b <=? 57) then Some (b - 48)
  else if (65 <=? b) && (b <=? 70) then Some (b - 55)
  else if (97 <=? b) && (b <=? 102) then Some (b - 87)
  else None.

(** [unquote_to_bytes]: a percent sign followed by two hex digits is
    one byte, any other percent sign stands for itself. *)
Fixpoint unquote_to_bytes (bs : bytes) : bytes :=
  match bs with
  | [] => []
  | b :: t =>
      if b =? 37 then
        match t with
        | h1 :: h2 :: rest =>
            match hex_value h1, hex_value h2 with
            | Some x, Some y => (16 * x + y) :: unquote_to_bytes rest
            | _, _ => b :: unquote_to_bytes t
            end
        | _ => b :: unquote_to_bytes t
        end
      else b :: unquote_to_bytes t
  end.

(** The maximal runs of ASCII and of non-ASCII characters
    ([_asciire.split]). *)
Fixpoint ascii_runs (s : str) : list (bool * str) :=
  match s with
  | [] => []
  | c :: t =>
      match ascii_runs t with
      | (b, r) :: rest =>
          if eqb b (is_ascii c) then (b, c :: r) :: rest
          else (is_ascii c, [c]) :: (b, r) :: rest
      | [] => [(is_ascii c, [c])]
      end
  end.

(** [unquote(s)] with the defaults: UTF-8, errors="replace". *)
Definition unquote (s : str) : str :=
  if contains (is_ch "%") s then
    ascii_runs s ≫= (λ run : bool * str, if run.1 then decode Replace (unquote_to_bytes (encode run.2)) else run.2)
  else s.

(** [parse_qsl(qs)] with the defaults: blank values dropped, no strict
    parsing. *)
Definition plus_to_space (c : uchar) : uchar := if is_ch "+" c then of_ascii " " else c.

Definition parse_qsl (qs : str) : list (str * str) :=
  let query_args := if truthy qs then split (is_ch "&") qs else [] in
  query_args ≫= (λ name_value,
    if truthy name_value then
      match partition (is_ch "=") name_value with
      | Some (n, v) =>
          if truthy v then [(unquote (plus_to_space <$> n), unquote (plus_to_space <$> v))]
          else []
      | None => []
      end
    else []).

(** [parse_qs(qs)]: the dict from a name to the list of its values, in
    the order the names first occur. *)
Fixpoint dict_append (d : list (str * list str)) (name value : str) : list (str * list str) :=
  match d with
  | [] => [(name, [value])]
  | (k, vs) :: rest =>
      if str_eqb k name then (k, vs ++ [value]) :: rest
      else (k, vs) :: dict_append rest name value
  end.

Definition parse_qs (qs : str) : list (str * list str) :=
  foldl (λ d nv, dict_append d nv.1 nv.2) [] (parse_qsl qs).

(** [d.get(name)]. *)
Fixpoint dict_get {V} (d : list (str * V)) (name : str) : option V :=
  match d with
  | [] => None
  | (k, v) :: rest => if str_eqb k name then Some v else dict_get rest name
  end.

(** *** The text [quote] writes *)

(** The code of a hexadecimal digit of [quote]. *)
Definition hex_code (d : N) : N := if d <? 10 then 48 + d else 55 + d.

(** The bytes [quote] writes for one byte. *)
Definition quote_codes (b : N) : bytes :=
  if always_safe b then [b] else [37; hex_code (b / 16); hex_code (b mod 16)].

(** A character [quote] writes: an always-safe one or the percent sign. *)
Definition quoted_char (c : uchar) : bool := always_safe (cp c) || (cp c =? 37).

End Urllib.

(** ** errors.py: one constructor per raise site of the resolver *)

Inductive AirflowToolError : Type :=
| InvalidUrl (url : Py.str)                       (* "Invalid URL": urlparse raised *)
| MissingScheme (url : Py.str)                    (* "ui_url must be a full http(s) URL" *)
| BadScheme (scheme : Py.str)                     (* "ui_url must start with http or https" *)
| MissingHostname (url : Py.str)                  (* "Missing hostname in URL" *)
| UnknownHost (host : Py.str)                     (* "Unknown instance host" *)
| MissingInstance                                 (* "Missing instance" *)
| InvalidInstance (value : Py.str)                (* "Invalid instance" *)
| InvalidIdentifier (field value : Py.str)        (* "Invalid dag_id" and the like *)
| MissingDagId                                    (* "Missing dag_id" *)
| UnknownInstance (instance : Py.str)             (* "Unknown instance" *)
| UnsupportedRoute (route : Py.str)               (* "Unsupported route or missing identifiers" *)
| InstanceMismatch (ui_url_instance param_instance : Py.str)   (* "INSTANCE_MISMATCH" *)
| MissingTarget.                                  (* "MISSING_TARGET" *)

Inductive error_code : Type := INVALID_INPUT | NOT_FOUND.

Definition code (e : AirflowToolError) : error_code :=
  match e with
  | UnknownHost _ | UnknownInstance _ => NOT_FOUND
  | _ => INVALID_INPUT
  end.

Inductive result (A : Type) : Type :=
| Ok (a : A)
| Err (e : AirflowToolError).
Arguments Ok {A} a.
Arguments Err {A} e.

#[export] Instance result_ret : MRet result := λ A a, Ok a.
#[export] Instance result_bind : MBind result :=
  λ A B f r, match r with Ok a => f a | Err e => Err e end.
#[export] Instance result_fmap : FMap result :=
  λ A B f r, match r with Ok a => Ok (f a) | Err e => Err e end.

(** ** validation.py *)

Module Validation.
Import Py.

(** The character classes of the identifier patterns. *)
Definition instance_key_first (c : uchar) : bool := ascii_alnum c.
Definition dag_id_char (c : uchar) : bool := ascii_alnum c || in_chars "_.-" c.
Definition dag_run_id_char (c : uchar) : bool := ascii_alnum c || in_chars "_.:+-" c.
Definition task_id_char (c : uchar) : bool := ascii_alnum c || in_chars "_.+-" c.

(** [INSTANCE_KEY_PATTERN.fullmatch]: [^[A-Za-z0-9][A-Za-z0-9_.-]*$]. *)
Definition INSTANCE_KEY_PATTERN (value : str) : bool :=
  match value with
  | c :: t => instance_key_first c && forallb dag_id_char t
  | [] => false
  end.

(** [P.fullmatch] for a pattern [^[class]+$]. *)
Definition one_or_more (class : uchar → bool) (value : str) : bool :=
  truthy value && forallb class value.

Definition DAG_ID_PATTERN : str → bool := one_or_more dag_id_char.
Definition DAG_RUN_ID_PATTERN : str → bool := one_or_more dag_run_id_char.
Definition TASK_ID_PATTERN : str → bool := one_or_more task_id_char.

Definition _validate_optional (name : str) (value : option str) (pattern : str → bool)
    : result (option str) :=
  match value with
  | None => Ok None
  | Some v => if pattern v then Ok (Some v) else Err (InvalidIdentifier name v)
  end.

Definition validate_instance_key (value : str) : result str :=
  if negb (truthy value) then Err MissingInstance
  else if negb (INSTANCE_KEY_PATTERN value) then Err (InvalidInstance value)
  else Ok value.

Definition validate_dag_id (value : option str) : result (option str) :=
  _validate_optional (py "dag_id") value DAG_ID_PATTERN.
Definition validate_dag_run_id (value : option str) : result (option str) :=
  _validate_optional (py "dag_run_id") value DAG_RUN_ID_PATTERN.
Definition validate_task_id (value : option str) : result (option str) :=
  _validate_optional (py "task_id") value TASK_ID_PATTERN.

End Validation.

(** ** url_utils.py *)

Module UrlUtils.
Import Py Urllib Validation.

Record ResolvedUrl : Type := {
  instance : str;
  route : str;           (* grid | graph | dag_run | task | log | unknown *)
  dag_id : option str;
  dag_run_id : option str;
  task_id : option str;
  try_number : option Z
}.

(** registry.py: of an [InstanceConfig] the resolver reads [host] only. *)
Record InstanceConfig : Type := { host : str }.

(** [get_registry().instances]: a dict, in insertion order. *)
Definition instances : Type := list (str * InstanceConfig).

Definition _encode_segment (value : str) : str := quote value.

(** [_encode_query] of a dict given as its items in order. *)
Definition _encode_query (params : list (str * option str)) : str :=
  join (py "&")
    (params ≫= (λ kv : str * option str,
       match kv.2 with
       | None => []
       | Some value => [quote kv.1 ++ py "=" ++ _encode_segment value]
       end)).

(** Truthiness of an optional string. *)
Definition given (v : option str) : bool :=
  match v with Some s => truthy s | None => false end.

Section resolver.
Context `{Unicode}.
Variable reg : instances.

Fixpoint resolve_in (items : instances) (host_name : str) : option str :=
  match items with
  | [] => None
  | (key, inst) :: rest =>
      let hit :=
        match urlparse (host inst) with
        | Some parsed => str_eqb (default [] (hostname parsed)) host_name
        | None => false                       (* except Exception: pass *)
        end in
      if hit then Some key else resolve_in rest host_name
  end.

Definition _resolve_instance_key_from_host (host_name : str) : option str :=
  resolve_in reg host_name.

(** The test of the loop: the configured base URL parses and its
    hostname is the one looked for. *)
Definition host_matches (inst : InstanceConfig) (host_name : str) : bool :=
  match urlparse (host inst) with
  | Some parsed => str_eqb (default [] (hostname parsed)) host_name
  | None => false
  end.

(** The local function [q] of [parse_airflow_ui_url]. *)
Definition q (query : list (str * list str)) (name : str) : option str :=
  match dict_get query name with
  | Some (v :: _) => Some v
  | _ => None
  end.

Definition is_str (lit : string) (s : str) : bool := str_eqb s (py lit).
Arguments is_str lit%_string_scope s.

(** The branch on the path segments; [segments !! i] is [segments[i]]
    where the length test before it makes the index valid. *)
Definition route_of (segments : list str) (query : list (str * list str))
    : result (str * option str * option str * option str * option Z) :=
  let unknown := py "unknown" in
  match segments with
  | s0 :: s1 :: rest =>
      if is_str "dags" s0 then
        dag_id ← validate_dag_id (Some (unquote s1));
        match rest with
        | s2 :: rest3 =>
            if is_str "grid" s2 || is_str "graph" s2 then
              dag_run_id ← validate_dag_run_id (q query (py "dag_run_id"));
              Ok (s2, dag_id, dag_run_id, None, None)
            else if is_str "dagRuns" s2 then
              match rest3 with
              | s3 :: rest4 =>
                  dag_run_id ← validate_dag_run_id (Some (unquote s3));
                  match rest4 with
                  | s4 :: s5 :: s6 :: s7 :: _ =>
                      if is_str "taskInstances" s4 && is_str "logs" s6 then
                        task_id ← validate_task_id (Some (unquote s5));
                        Ok (py "log", dag_id, dag_run_id, task_id, int s7)
                      else Ok (py "dag_run", dag_id, dag_run_id, None, None)
                  | _ => Ok (py "dag_run", dag_id, dag_run_id, None, None)
                  end
              | [] => Ok (unknown, dag_id, None, None, None)
              end
            else if is_str "task" s2 then
              task_id ← validate_task_id (q query (py "task_id"));
              dag_run_id ← validate_dag_run_id (q query (py "dag_run_id"));
              Ok (py "task", dag_id, dag_run_id, task_id, None)
            else Ok (unknown, dag_id, None, None, None)
        | [] => Ok (unknown, dag_id, None, None, None)
        end
      else Ok (unknown, None, None, None, None)
  | _ => Ok (unknown, None, None, None, None)
  end.

Definition parse_airflow_ui_url (url : str) : result ResolvedUrl :=
  match urlparse url with
  | None => Err (InvalidUrl url)
  | Some parsed =>
      let scheme := lower (scheme parsed) in
      if negb (truthy scheme) then Err (MissingScheme url)
      else if negb (is_str "http" scheme || is_str "https" scheme)
      then Err (BadScheme (Urllib.scheme parsed))
      else
        let host_name := default [] (hostname parsed) in
        if negb (truthy host_name) then Err (MissingHostname url)
        else
          match _resolve_instance_key_from_host host_name with
          | None => Err (UnknownHost host_name)
          | Some instance_key =>
              if negb (truthy instance_key) then Err (UnknownHost host_name)
              else
                instance_key ← validate_instance_key instance_key;
                let query := parse_qs (query parsed) in
                let segments := filter (λ s, truthy s = true) (split (is_ch "/") (path parsed)) in
                '(route, dag_id, dag_run_id, task_id, try_number) ← route_of segments query;
                Ok {| instance := instance_key; route := route; dag_id := dag_id;
                      dag_run_id := dag_run_id; task_id := task_id;
                      try_number := try_number |}
          end
  end.


Definition resolve_and_validate (ui_url instance : option str) : result ResolvedUrl :=
  instance ← (if given instance
              then Some <$> validate_instance_key (default [] instance)
              else Ok instance);
  if given ui_url && given instance then
    parsed ← parse_airflow_ui_url (default [] ui_url);
    if negb (str_eqb (UrlUtils.instance parsed) (default [] instance))
    then Err (InstanceMismatch (UrlUtils.instance parsed) (default [] instance))
    else Ok parsed
  else if given ui_url && negb (given instance) then
    parse_airflow_ui_url (default [] ui_url)
  else if given instance && negb (given ui_url) then
    match dict_get reg (default [] instance) with
    | None => Err (UnknownInstance (default [] instance))
    | Some _ =>
        Ok {| instance := default [] instance; route := py "unknown"; dag_id := None;
              dag_run_id := None; task_id := None; try_number := None |}
    end
  else Err MissingTarget.

End resolver.
(** *** Directories for the concrete runs *)

Definition sample_registry : instances :=
  [(py "stg", {| host := py "https://airflow.stg.example.com/" |});
   (py "prod", {| host := py "https://airflow.prod.example.com" |})].



(** *** The path-shape table as the code applies it *)

(** The non-empty segments of a path. *)
Definition path_segments (path : str) : list str :=
  filter (λ s, truthy s = true) (split (is_ch "/") path).

(** Segment [i] exists and is the keyword. *)
Definition keyword (segments : list str) (i : nat) (lit : string) : bool :=
  match segments !! i with Some s => is_str lit s | None => false end.
Arguments keyword segments i%_nat_scope lit%_string_scope.

(** The row of the table a list of segments selects: the keywords at
    their positions and at least the row's number of segments. *)
Definition row_of (segments : list str) : str :=
  if keyword segments 0 "dags" && bool_decide (2 ≤ length segments)%nat then
    if keyword segments 2 "grid" then py "grid"
    else if keyword segments 2 "graph" then py "graph"
    else if keyword segments 2 "dagRuns" && bool_decide (4 ≤ length segments)%nat then
      if bool_decide (8 ≤ length segments)%nat && keyword segments 4 "taskInstances"
         && keyword segments 6 "logs"
      then py "log" else py "dag_run"
    else if keyword segments 2 "task" then py "task"
    else py "unknown"
  else py "unknown".

(** *** What a built URL carries of the identifiers given to [build] *)



(** *** The text [build_airflow_ui_url] writes *)




(** The parameters of a query that have a value. *)
Definition given_params (params : list (str * option str)) : list (str * str) :=
  params ≫= (λ kv, match kv.2 with None => [] | Some v => [(kv.1, v)] end).

(** One parameter as [_encode_query] writes it. *)
Definition encode_param (kv : str * str) : str := quote kv.1 ++ py "=" ++ _encode_segment kv.2.

End UrlUtils.

(** ** tools/_common.py *)

Module Common.
Import Py Urllib.



End Common.

(** ** tools/task_logs.py: the identifiers of [get_task_instance_logs] *)

Module LogsTool.
Import Py Urllib Validation UrlUtils.

(** [a or b] for a string or [None]. *)
Definition or_else (a b : option str) : option str := if given a then a else b.

(** The errors raised before the log is fetched: those of the resolver
    and of the validators, and the one of the test for a missing
    identifier. *)
Inductive request_error : Type :=
| Tool (e : AirflowToolError)
| MissingIdentifiers.   (* "Missing dag_id, dag_run_id, task_id, or try_number" *)

Record log_target : Type := {
  target_dag_id : str;
  target_dag_run_id : str;
  target_task_id : str;
  target_try_number : Z
}.

(** The identifiers of the request, from the parameters and from the
    resolved URL. [try_number] is an [int] or [None], as the signature
    declares it: the conversion of a value of another type is not
    modelled. *)
Definition log_identifiers (resolved : ResolvedUrl) (dag_id dag_run_id task_id : option str)
    (try_number : option Z) : request_error + log_target :=
  let dag_id_value := or_else dag_id (UrlUtils.dag_id resolved) in
  let dag_run_id_value := or_else dag_run_id (UrlUtils.dag_run_id resolved) in
  let task_id_value := or_else task_id (UrlUtils.task_id resolved) in
  let try_number_value :=
    match try_number with Some n => Some n | None => UrlUtils.try_number resolved end in
  match validate_dag_id dag_id_value with
  | Err e => inl (Tool e)
  | Ok dag_id_value =>
      match validate_dag_run_id dag_run_id_value with
      | Err e => inl (Tool e)
      | Ok dag_run_id_value =>
          match validate_task_id task_id_value with
          | Err e => inl (Tool e)
          | Ok task_id_value =>
              if negb (given dag_id_value) || negb (given dag_run_id_value)
                 || negb (given task_id_value) || negb (bool_decide (is_Some try_number_value))
              then inl MissingIdentifiers
              else inr {| target_dag_id := default [] dag_id_value;
                          target_dag_run_id := default [] dag_run_id_value;
                          target_task_id := default [] task_id_value;
                          target_try_number := default 0%Z try_number_value |}
          end
      end
  end.



End LogsTool.

Local Open Scope N_scope.

(** * Facts about the Python values *)

Section py_facts.
Import Py.

Lemma uchar_eq (a b : uchar) : cp a = cp b → a = b.
Proof.
  destruct a as [n Hn], b as [m Hm]; simpl; intros ->.
  f_equal. apply (proof_irrel Hn Hm).
Qed.

Lemma mk_uchar_cp (c : uchar) : mk_uchar (cp c) = Some c.
Proof.
  destruct c as [n Hn]; simpl. unfold mk_uchar.
  generalize (eq_refl (is_scalar n)).
  generalize (is_scalar n) at 2 3.
  intros b; destruct b; intros E.
  - f_equal. apply uchar_eq. reflexivity.
  - congruence.
Qed.

Lemma emit_cp (c : uchar) (rest : str) : emit (cp c) rest = c :: rest.
Proof. unfold emit. now rewrite mk_uchar_cp. Qed.

Lemma cp_bound (c : uchar) : cp c < 0xD800 ∨ (0xDFFF < cp c ∧ cp c ≤ 0x10FFFF).
Proof.
  destruct c as [n Hn]; simpl. unfold is_scalar in Hn.
  apply orb_true_iff in Hn as [Hn|Hn].
  - left. now apply N.ltb_lt.
  - right. apply andb_true_iff in Hn as [H1 H2].
    apply N.ltb_lt in H1. apply N.leb_le in H2. lia.
Qed.

End py_facts.

Local Open Scope N_scope.

Section utf8_facts.
Import Py.

Ltac btest :=
  repeat match goal with
  | |- context [N.ltb ?a ?b] => destruct (N.ltb_spec a b); try lia
  | |- context [N.leb ?a ?b] => destruct (N.leb_spec a b); try lia
  | |- context [N.eqb ?a ?b] => destruct (N.eqb_spec a b); try lia
  end.

Lemma utf8_char_length (n : N) : (1 ≤ length (utf8_char n) ≤ 4)%nat.
Proof. unfold utf8_char. btest; simpl; lia. Qed.

Ltac bdet :=
  repeat match goal with
  | |- context [N.ltb ?a ?b] =>
      first [rewrite (proj2 (N.ltb_lt a b)) by lia | rewrite (proj2 (N.ltb_ge a b)) by lia]
  | |- context [N.leb ?a ?b] =>
      first [rewrite (proj2 (N.leb_le a b)) by lia | rewrite (proj2 (N.leb_gt a b)) by lia]
  | |- context [N.eqb ?a ?b] =>
      first [rewrite (proj2 (N.eqb_eq a b)) by lia | rewrite (proj2 (N.eqb_neq a b)) by lia]
  end.

Ltac bcases :=
  repeat (bdet; cbn [andb orb negb];
          try match goal with
              | |- context [N.eqb ?a ?b] => destruct (N.eqb_spec a b)
              end).

Lemma decode_char (e : errors) (c : uchar) (rest : bytes) :
  decode e (utf8_char (cp c) ++ rest) = c :: decode e rest.
Proof.
  pose proof (cp_bound c) as Hb.
  rewrite <- (emit_cp c (decode e rest)).
  generalize dependent (cp c). intros n Hb.
  unfold utf8_char.
  destruct (N.ltb_spec n 0x80) as [H1|H1].
  { simpl. destruct (N.ltb_spec n 0x80); [reflexivity|lia]. }
  destruct (N.ltb_spec n 0x800) as [H2|H2].
  { pose proof (N.Div0.div_mod n 64) as E. pose proof (N.mod_lt n 64 ltac:(lia)) as M.
    assert (n / 64 < 32) by (apply N.Div0.div_lt_upper_bound; lia).
    assert (2 ≤ n / 64) by (apply N.div_le_lower_bound; lia).
    set (q := n / 64) in *. set (r := n mod 64) in *.
    cbn [app decode]. unfold is_cont.
    bcases. f_equal. lia. }
  destruct (N.ltb_spec n 0x10000) as [H3|H3].
  { pose proof (N.Div0.div_mod n 64) as E. pose proof (N.mod_lt n 64 ltac:(lia)) as M.
    pose proof (N.Div0.div_mod (n / 64) 64) as E2.
    pose proof (N.mod_lt (n / 64) 64 ltac:(lia)) as M2.
    assert (E3 : n / 4096 = n / 64 / 64) by (rewrite N.Div0.div_div; reflexivity).
    assert (n / 4096 < 16) by (apply N.Div0.div_lt_upper_bound; lia).
    rewrite E3 in *.
    set (q := n / 64) in *. set (r := n mod 64) in *.
    set (q2 := q / 64) in *. set (r2 := q mod 64) in *.
    cbn [app decode]. unfold second_of_3, is_cont.
    bcases; f_equal; lia. }
  { pose proof (N.Div0.div_mod n 64) as E. pose proof (N.mod_lt n 64 ltac:(lia)) as M.
    pose proof (N.Div0.div_mod (n / 64) 64) as E2.
    pose proof (N.mod_lt (n / 64) 64 ltac:(lia)) as M2.
    pose proof (N.Div0.div_mod (n / 64 / 64) 64) as E4.
    pose proof (N.mod_lt (n / 64 / 64) 64 ltac:(lia)) as M4.
    assert (E3 : n / 4096 = n / 64 / 64) by (rewrite N.Div0.div_div; reflexivity).
    assert (E5 : n / 262144 = n / 64 / 64 / 64) by (rewrite !N.Div0.div_div; reflexivity).
    assert (n / 262144 < 5) by (apply N.Div0.div_lt_upper_bound; lia).
    rewrite E3, E5 in *.
    set (q := n / 64) in *. set (r := n mod 64) in *.
    set (q2 := q / 64) in *. set (r2 := q mod 64) in *.
    set (q3 := q2 / 64) in *. set (r3 := q2 mod 64) in *.
    cbn [app decode]. unfold second_of_4, is_cont.
    bcases; f_equal; lia. }
Qed.

End utf8_facts.

Local Open Scope N_scope.

Section utf8_cap.
Import Py.

Ltac btest :=
  repeat match goal with
  | |- context [N.ltb ?a ?b] => destruct (N.ltb_spec a b); try lia
  | |- context [N.leb ?a ?b] => destruct (N.leb_spec a b); try lia
  | |- context [N.eqb ?a ?b] => destruct (N.eqb_spec a b); try lia
  end.
Ltac crunch :=
  repeat first [ progress btest
               | progress cbn [andb orb negb decode on_error take]
               | progress unfold is_cont
               | match goal with
                 | |- context [second_of_3 ?a ?b] => destruct (second_of_3 a b)
                 | |- context [second_of_4 ?a ?b] => destruct (second_of_4 a b)
                 end ].

(** A proper prefix of the encoding of one character decodes to
    nothing under errors="ignore". *)
Lemma decode_truncated_char (c : uchar) (k : nat) :
  (k < length (utf8_char (cp c)))%nat →
  decode Ignore (take k (utf8_char (cp c))) = [].
Proof.
  pose proof (cp_bound c) as Hb.
  generalize dependent (cp c). intros n Hb.
  unfold utf8_char.
  destruct (N.ltb_spec n 0x80) as [H1|H1].
  { simpl. intros Hk. assert (k = 0%nat) as -> by lia. reflexivity. }
  pose proof (N.mod_lt n 64 ltac:(lia)) as M.
  pose proof (N.mod_lt (n / 64) 64 ltac:(lia)) as M2.
  pose proof (N.mod_lt (n / 4096) 64 ltac:(lia)) as M3.
  destruct (N.ltb_spec n 0x800) as [H2|H2].
  { assert (n / 64 < 32) by (apply N.Div0.div_lt_upper_bound; lia).
    assert (2 ≤ n / 64) by (apply N.div_le_lower_bound; lia).
    set (q := n / 64) in *. set (r := n mod 64) in *.
    simpl. intros Hk.
    destruct k as [|[|k]]; [reflexivity| |clear -Hk; lia].
    crunch. reflexivity. }
  destruct (N.ltb_spec n 0x10000) as [H3|H3].
  { assert (n / 4096 < 16) by (apply N.Div0.div_lt_upper_bound; lia).
    set (q := n / 4096) in *. set (r := (n / 64) mod 64) in *. set (r0 := n mod 64) in *.
    simpl. intros Hk.
    destruct k as [|[|[|k]]]; [reflexivity| | |clear -Hk; lia].
    - crunch. reflexivity.
    - crunch; reflexivity. }
  { assert (n / 262144 < 5) by (apply N.Div0.div_lt_upper_bound; lia).
    set (q := n / 262144) in *. set (r := (n / 4096) mod 64) in *.
    set (r1 := (n / 64) mod 64) in *. set (r0 := n mod 64) in *.
    simpl. intros Hk.
    destruct k as [|[|[|[|k]]]]; [reflexivity| | | |clear -Hk; lia].
    - crunch. reflexivity.
    - crunch; reflexivity.
    - crunch; reflexivity. }
Qed.

Lemma encode_cons (c : uchar) (s : str) : encode (c :: s) = utf8_char (cp c) ++ encode s.
Proof. reflexivity. Qed.

Lemma encode_app (s t : str) : encode (s ++ t) = encode s ++ encode t.
Proof. unfold encode. apply bind_app. Qed.

(** Cutting the encoding of a string after [n] bytes and decoding with
    errors="ignore" gives a prefix of the string, whose encoding is a
    prefix of the cut bytes. *)
Lemma decode_take_encode (s : str) (n : nat) :
  ∃ k, decode Ignore (take n (encode s)) = take k s
       ∧ encode (take k s) `prefix_of` take n (encode s).
Proof.
  revert n. induction s as [|c s IH]; intros n.
  - exists 0%nat. change (encode []) with (@nil N). rewrite take_nil.
    split; [reflexivity|]. apply prefix_nil.
  - rewrite encode_cons.
    destruct (decide (length (utf8_char (cp c)) ≤ n)%nat) as [Hle|Hgt].
    + rewrite take_app_ge by done.
      destruct (IH (n - length (utf8_char (cp c)))%nat) as (k & Hk & Hp).
      exists (S k). rewrite decode_char, Hk. split; [reflexivity|].
      rewrite firstn_cons, encode_cons. by apply prefix_app.
    + rewrite take_app_le by lia.
      exists 0%nat. rewrite decode_truncated_char by lia.
      split; [reflexivity|]. simpl. apply prefix_nil.
Qed.

Lemma decode_encode (e : errors) (s : str) : decode e (encode s) = s.
Proof.
  induction s as [|c s IH]; [reflexivity|].
  rewrite encode_cons, decode_char. by rewrite IH.
Qed.

End utf8_cap.

Local Open Scope N_scope.

Section str_facts.
Import Py.

Lemma str_eqb_eq (a b : str) : str_eqb a b = true ↔ a = b.
Proof.
  revert b. induction a as [|x a IH]; intros [|y b]; simpl; try done.
  rewrite andb_true_iff, N.eqb_eq, IH. split.
  - intros [Hc ->]. f_equal. by apply uchar_eq.
  - intros [= -> ->]. done.
Qed.


Lemma str_eqb_neq (a b : str) : str_eqb a b = false ↔ a ≠ b.
Proof.
  rewrite <- str_eqb_eq. destruct (str_eqb a b); split; congruence.
Qed.

Lemma len_nonneg {A} (l : list A) : (0 ≤ len l)%Z.
Proof. unfold len. lia. Qed.

Lemma truthy_length {A} (l : list A) : truthy l = true ↔ (0 < length l)%nat.
Proof. destruct l; simpl; split; (done || lia). Qed.


Lemma slice_from_le {A} (a : Z) (l : list A) : (len (slice_from a l) ≤ len l)%Z.
Proof. unfold slice_from, len. rewrite length_drop. lia. Qed.

Lemma slice_from_suffix {A} (a : Z) (l : list A) : slice_from a l `suffix_of` l.
Proof. apply suffix_drop. Qed.


(** *** Lines *)



Lemma NL_linebreak : NL = [chr 10] ∧ is_linebreak (chr 10) = true ∧ is_ch "013" (chr 10) = false.
Proof. done. Qed.




End str_facts.

Local Open Scope Z_scope.

Section filter_facts.
Import Py Re TaskLogs.

Lemma getitem_app_here {A} (pre l : list A) (x : A) :
  getitem (pre ++ x :: l) (len pre) = Some x.
Proof.
  unfold getitem, len. destruct (Z.ltb_spec (Z.of_nat (length pre)) 0); [lia|].
  rewrite Nat2Z.id. by rewrite list_lookup_middle.
Qed.

Lemma len_snoc {A} (pre : list A) (x : A) : len (pre ++ [x]) = len pre + 1.
Proof. unfold len. rewrite length_app. simpl. lia. Qed.

Lemma len_cons {A} (x : A) (l : list A) : len (x :: l) = len l + 1.
Proof. unfold len. simpl. lia. Qed.

Lemma seqZ_len_cons {A} (m : Z) (x : A) (l : list A) :
  seqZ m (len (x :: l)) = m :: seqZ (m + 1) (len l).
Proof.
  rewrite seqZ_cons by (rewrite len_cons; pose proof (len_nonneg l); lia).
  rewrite len_cons. f_equal. f_equal; lia.
Qed.

(** Picking the indices that satisfy [P] keeps the lines at them. *)
Lemma pick_filter_off (P : Z → bool) (pre l : list str) :
  omap (getitem (pre ++ l)) (filter (λ j, P j = true) (seqZ (len pre) (len l)))
  = (λ p : Z * str, p.2) <$> filter (λ p : Z * str, P p.1 = true) (zip (seqZ (len pre) (len l)) l).
Proof.
  revert pre. induction l as [|x l IH]; intros pre; [done|].
  rewrite seqZ_len_cons. cbn [zip zip_with].
  rewrite !filter_cons. cbn [fst].
  specialize (IH (pre ++ [x])). rewrite <- (assoc_L (++)), len_snoc in IH. cbn in IH.
  destruct (decide (P (len pre) = true)) as [HP|HP].
  - cbn [omap fmap list_fmap list_omap]. rewrite getitem_app_here. cbn. by rewrite IH.
  - done.
Qed.

Lemma pick_filter (P : Z → bool) (lines : list str) :
  pick lines (filter (λ j, P j = true) (seqZ 0 (len lines))) = keep_where P lines.
Proof. apply (pick_filter_off P [] lines). Qed.

(** Picking the matched indices keeps the matching lines. *)
Lemma pick_matched_off (Q : str → bool) (pre l : list str) :
  omap (getitem (pre ++ l))
    ((λ p : Z * str, p.1) <$> filter (λ p : Z * str, Q p.2 = true) (zip (seqZ (len pre) (len l)) l))
  = filter (λ line, Q line = true) l.
Proof.
  revert pre. induction l as [|x l IH]; intros pre; [done|].
  rewrite seqZ_len_cons. cbn [zip zip_with].
  rewrite !filter_cons. cbn [snd].
  specialize (IH (pre ++ [x])). rewrite <- (assoc_L (++)), len_snoc in IH. cbn in IH.
  destruct (decide (Q x = true)) as [HQ|HQ].
  - cbn [omap fmap list_fmap list_omap fst]. rewrite getitem_app_here. cbn. by rewrite IH.
  - done.
Qed.

Lemma pick_matched `{Unicode} (pattern : regex) (lines : list str) :
  pick lines (matched_indices pattern lines)
  = filter (λ line, search pattern line = true) lines.
Proof. apply (pick_matched_off (search pattern) [] lines). Qed.

Lemma matched_indices_length `{Unicode} (pattern : regex) (lines : list str) :
  length (matched_indices pattern lines)
  = length (filter (λ line, search pattern line = true) lines).
Proof.
  rewrite <- pick_matched. unfold matched_indices.
  generalize (@nil str) as pre. intros pre.
  enough (∀ (pre l : list str),
    length ((λ p : Z * str, p.1) <$> filter (λ p : Z * str, search pattern p.2 = true)
              (zip (seqZ (len pre) (len l)) l))
    = length (omap (getitem (pre ++ l))
        ((λ p : Z * str, p.1) <$> filter (λ p : Z * str, search pattern p.2 = true)
              (zip (seqZ (len pre) (len l)) l)))) as Hgen by apply (Hgen [] lines).
  clear pre. intros pre l. rewrite pick_matched_off, length_fmap.
  revert pre. induction l as [|x l IH]; intros pre; [done|].
  rewrite seqZ_len_cons. cbn [zip zip_with]. rewrite !filter_cons. cbn [snd].
  specialize (IH (pre ++ [x])). rewrite len_snoc in IH.
  destruct (decide (search pattern x = true)); cbn; by rewrite IH.
Qed.

(** *** Context expansion *)

Lemma elem_of_range (start stop j : Z) : j ∈ range start stop ↔ start ≤ j < stop.
Proof. unfold range. rewrite elem_of_seqZ. lia. Qed.

Lemma elem_of_expand_acc (n c : Z) (matched : list Z) (acc : gset Z) (j : Z) :
  j ∈ foldl (λ (acc : gset Z) idx,
               acc ∪ list_to_set (range (Z.max 0 (idx - c)) (Z.min n (idx + c + 1))))
            acc matched
  ↔ j ∈ acc ∨ ∃ i, i ∈ matched ∧ Z.max 0 (i - c) ≤ j < Z.min n (i + c + 1).
Proof.
  revert acc. induction matched as [|i matched IH]; intros acc; cbn [foldl].
  - split; [by left|]. intros [?|(i & Hi & _)]; [done|]. by apply elem_of_nil in Hi.
  - rewrite IH, elem_of_union, elem_of_list_to_set, elem_of_range. split.
    + intros [[?|?]|(i' & Hi' & ?)]; [by left | right; exists i | right; exists i'].
      * split; [left|done].
      * split; [by right|done].
    + intros [?|(i' & Hi' & ?)]; [by left; left|].
      apply elem_of_cons in Hi' as [->|Hi']; [left; by right|].
      right. by exists i'.
Qed.

Lemma elem_of_expand (n c : Z) (matched : list Z) (j : Z) :
  j ∈ expand n c matched ↔ in_window n c matched j = true.
Proof.
  unfold expand. rewrite elem_of_expand_acc. unfold in_window.
  rewrite existsb_exists. split.
  - intros [Hj|(i & Hi & Hw)]; [set_solver|].
    exists i. split; [by apply list_elem_of_In|].
    apply andb_true_iff. split; [apply Z.leb_le|apply Z.leb_le]; lia.
  - intros (i & Hi & Hw). right. exists i. split; [by apply list_elem_of_In|].
    apply andb_true_iff in Hw as [H1 H2]. apply Z.leb_le in H1, H2. lia.
Qed.

Lemma in_window_range (n c : Z) (matched : list Z) (j : Z) :
  in_window n c matched j = true → 0 ≤ j < n.
Proof.
  unfold in_window. rewrite existsb_exists. intros (i & _ & Hw).
  apply andb_true_iff in Hw as [H1 H2]. apply Z.leb_le in H1, H2. lia.
Qed.

Lemma StronglySorted_seqZ (m n : Z) : StronglySorted Z.le (seqZ m n).
Proof.
  destruct (Z.le_gt_cases n 0) as [Hn|Hn]; [rewrite seqZ_nil by done; constructor|].
  rewrite <- (Z2Nat.id n) by lia. generalize (Z.to_nat n) as k. clear. intros k.
  revert m. induction k as [|k IH]; intros m.
  - rewrite seqZ_nil by done. constructor.
  - rewrite seqZ_cons by lia. constructor.
    + replace (Z.pred (Z.of_nat (S k))) with (Z.of_nat k) by lia. apply IH.
    + apply Forall_forall. intros x Hx%elem_of_seqZ. lia.
Qed.

Lemma StronglySorted_filter_le (P : Z → Prop) `{∀ x, Decision (P x)} (l : list Z) :
  StronglySorted Z.le l → StronglySorted Z.le (filter P l).
Proof.
  induction 1 as [|x l Hl IH Hx]; [constructor|].
  rewrite filter_cons. destruct (decide (P x)); [|done].
  constructor; [done|]. apply Forall_forall. intros y Hy%list_elem_of_filter.
  rewrite Forall_forall in Hx. apply Hx, Hy.
Qed.

(** [sorted(expanded_indices)] is the increasing list of the indices in
    some window. *)
Lemma sorted_expand (n c : Z) (matched : list Z) :
  sorted (expand n c matched)
  = filter (λ j, in_window n c matched j = true) (seqZ 0 n).
Proof.
  unfold sorted. apply (StronglySorted_unique Z.le).
  - apply StronglySorted_merge_sort; apply _.
  - apply StronglySorted_filter_le, StronglySorted_seqZ.
  - rewrite merge_sort_Permutation. apply NoDup_Permutation.
    + apply NoDup_elements.
    + apply NoDup_filter, NoDup_seqZ.
    + intros j. rewrite elem_of_elements, elem_of_expand, list_elem_of_filter, elem_of_seqZ.
      split; [|by intros [? _]]. intros Hj. split; [done|].
      apply in_window_range in Hj. lia.
Qed.

Lemma keep_where_length (P : Z → bool) (lines : list str) :
  (length (keep_where P lines) ≤ length lines)%nat.
Proof.
  unfold keep_where, enumerate. rewrite length_fmap.
  etrans; [apply length_filter|]. rewrite length_zip_with, length_seqZ.
  unfold len. lia.
Qed.

End filter_facts.

Local Open Scope Z_scope.

Section cap_facts.
Import Py Re TaskLogs.



End cap_facts.

Section claim_byte_cap.
Import Py Re TaskLogs.
Context `{Unicode}.


End claim_byte_cap.


Local Open Scope Z_scope.

Section window_facts.
Import Py Re TaskLogs.

Lemma keep_where_ext_off (P Q : Z → bool) (m : Z) (l : list str) :
  (∀ j, m ≤ j < m + len l → P j = Q j) →
  (λ p : Z * str, p.2) <$> filter (λ p : Z * str, P p.1 = true) (zip (seqZ m (len l)) l)
  = (λ p : Z * str, p.2) <$> filter (λ p : Z * str, Q p.1 = true) (zip (seqZ m (len l)) l).
Proof.
  revert m. induction l as [|x l IH]; intros m HPQ; [done|].
  rewrite seqZ_len_cons. cbn [zip zip_with]. rewrite !filter_cons. cbn [fst].
  pose proof (len_nonneg l) as Hl. rewrite len_cons in HPQ.
  rewrite (HPQ m) by lia.
  specialize (IH (m + 1) ltac:(intros j Hj; apply HPQ; lia)).
  destruct (decide (Q m = true)); cbn; by rewrite IH.
Qed.

Lemma keep_where_ext (P Q : Z → bool) (lines : list str) :
  (∀ j, 0 ≤ j < len lines → P j = Q j) → keep_where P lines = keep_where Q lines.
Proof. intros HPQ. apply keep_where_ext_off. intros j Hj. apply HPQ. lia. Qed.

Lemma keep_none_off (m : Z) (l : list str) :
  (λ p : Z * str, p.2) <$> filter (λ p : Z * str, false = true) (zip (seqZ m (len l)) l) = [].
Proof.
  revert m. induction l as [|y l IH]; intros m; [done|].
  rewrite seqZ_len_cons. cbn [zip zip_with]. rewrite filter_cons.
  destruct (decide (false = true)); [done|]. apply IH.
Qed.

Lemma keep_all_off (m : Z) (l : list str) :
  (λ p : Z * str, p.2) <$> filter (λ p : Z * str, true = true) (zip (seqZ m (len l)) l) = l.
Proof.
  revert m. induction l as [|y l IH]; intros m; [done|].
  rewrite seqZ_len_cons. cbn [zip zip_with]. rewrite filter_cons.
  destruct (decide (true = true)); [|done]. cbn. by rewrite IH.
Qed.

Lemma keep_below_off (k m : Z) (l : list str) :
  (λ p : Z * str, p.2) <$> filter (λ p : Z * str, (p.1 <? k) = true) (zip (seqZ m (len l)) l)
  = take (Z.to_nat (k - m)) l.
Proof.
  revert m. induction l as [|x l IH]; intros m; [by rewrite take_nil|].
  destruct (Z.lt_ge_cases m k) as [Hlt|Hge].
  - rewrite seqZ_len_cons. cbn [zip zip_with]. rewrite !filter_cons. cbn [fst].
    destruct (decide ((m <? k) = true)) as [_|Hn]; [|apply Z.ltb_lt in Hlt; done].
    cbn. rewrite IH.
    replace (Z.to_nat (k - m)) with (S (Z.to_nat (k - (m + 1)))) by lia. done.
  - etrans; [apply (keep_where_ext_off (λ j, j <? k) (λ _, false));
             intros j Hj; apply Z.ltb_ge; lia|].
    rewrite keep_none_off. replace (Z.to_nat (k - m)) with 0%nat by lia. done.
Qed.

Lemma keep_below (k : Z) (lines : list str) :
  keep_where (λ j, j <? k) lines = take (Z.to_nat k) lines.
Proof. unfold keep_where, enumerate. rewrite keep_below_off. f_equal. lia. Qed.

Lemma keep_from_off (k m : Z) (l : list str) :
  (λ p : Z * str, p.2) <$> filter (λ p : Z * str, (k <=? p.1) = true) (zip (seqZ m (len l)) l)
  = drop (Z.to_nat (k - m)) l.
Proof.
  revert m. induction l as [|x l IH]; intros m; [by rewrite drop_nil|].
  destruct (Z.lt_ge_cases m k) as [Hlt|Hge].
  - rewrite seqZ_len_cons. cbn [zip zip_with]. rewrite !filter_cons. cbn [fst].
    destruct (decide ((k <=? m) = true)) as [Hle|_]; [apply Z.leb_le in Hle; lia|].
    rewrite IH.
    replace (Z.to_nat (k - m)) with (S (Z.to_nat (k - (m + 1)))) by lia. done.
  - rewrite (keep_where_ext_off _ (λ _, true)) by (intros j Hj; apply Z.leb_le; lia).
    rewrite keep_all_off. replace (Z.to_nat (k - m)) with 0%nat by lia. done.
Qed.

Lemma keep_from (k : Z) (lines : list str) :
  keep_where (λ j, k <=? j) lines = drop (Z.to_nat k) lines.
Proof. unfold keep_where, enumerate. rewrite keep_from_off. f_equal. lia. Qed.

Lemma patterns_get_truthy (level : str) (pattern : regex) :
  patterns_get level = Some pattern → truthy level = true.
Proof. by destruct level. Qed.

End window_facts.

Local Open Scope Z_scope.

Section claim_context.
Import Py Re TaskLogs.
Context `{Unicode}.

Lemma filter_lines_expanded (lines : list str) (level : str) (pattern : regex)
    (c : Z) :
  patterns_get level = Some pattern →
  c ≠ 0 → matched_indices pattern lines ≠ [] →
  filter_lines lines (Some level) (Some c)
  = (keep_where (in_window (len lines) c (matched_indices pattern lines)) lines,
     len (matched_indices pattern lines)).
Proof.
  intros Hp Hc Hm. unfold filter_lines.
  rewrite (patterns_get_truthy _ _ Hp), Hp.
  destruct (Z.eqb_spec c 0) as [?|_]; [done|].
  destruct (matched_indices pattern lines) as [|i matched] eqn:E; [done|].
  cbn [negb truthy andb]. by rewrite sorted_expand, pick_filter.
Qed.

Lemma filter_lines_plain (lines : list str) (level : str) (pattern : regex)
    (context_lines : option Z) :
  patterns_get level = Some pattern →
  context_lines = None ∨ context_lines = Some 0 ∨ matched_indices pattern lines = [] →
  filter_lines lines (Some level) context_lines
  = (filter (λ line, search pattern line = true) lines,
     len (matched_indices pattern lines)).
Proof.
  intros Hp Hc. unfold filter_lines.
  rewrite (patterns_get_truthy _ _ Hp), Hp, <- pick_matched.
  destruct context_lines as [c|]; [|done].
  destruct (Z.eqb_spec c 0) as [?|Hne]; [done|].
  destruct Hc as [?|[[= ?]|Hm]]; [done|done|]. by rewrite Hm.
Qed.

(** C4. Context expansion. With at least one match and
    [context_lines > 0] the lines kept are exactly those whose index
    lies in the window [max(0, i-c) .. min(last, i+c)] of some match
    [i], each once and in increasing order of index. A single match at
    line 0 with [context_lines = 5] keeps lines 0..5 (six lines), a
    single match at the last line keeps the last six. Without a match,
    or with [context_lines] 0 or absent, only the matching lines are
    kept. *)
Theorem context_expansion (lines : list str) (level : str) (pattern : regex) (c : Z) :
  patterns_get level = Some pattern →
  let matched := matched_indices pattern lines in
  (0 < c → matched ≠ [] →
     (filter_lines lines (Some level) (Some c)).1
     = keep_where (in_window (len lines) c matched) lines)
  ∧ (matched = [0] → 6 ≤ len lines →
     (filter_lines lines (Some level) (Some 5)).1 = take 6 lines)
  ∧ (matched = [len lines - 1] → 6 ≤ len lines →
     (filter_lines lines (Some level) (Some 5)).1 = drop (length lines - 6) lines)
  ∧ (c = 0 ∨ matched = [] →
     (filter_lines lines (Some level) (Some c)).1
     = filter (λ line, search pattern line = true) lines)
  ∧ (filter_lines lines (Some level) None).1
    = filter (λ line, search pattern line = true) lines.
Proof.
  intros Hp matched. split; [|split; [|split; [|split]]].
  - intros Hc Hm. rewrite (filter_lines_expanded _ _ pattern) by (done || lia). done.
  - intros Hm Hn. rewrite (filter_lines_expanded _ _ pattern) by (done || by fold matched; rewrite Hm).
    cbn [fst]. fold matched. rewrite Hm.
    rewrite (keep_where_ext _ (λ j, j <? 6)); [by rewrite keep_below|].
    intros j Hj. unfold in_window. cbn [existsb]. rewrite orb_false_r.
    destruct (Z.ltb_spec j 6), (Z.leb_spec (Z.max 0 (0 - 5)) j),
      (Z.leb_spec j (Z.min (len lines - 1) (0 + 5))); cbn; lia.
  - intros Hm Hn. rewrite (filter_lines_expanded _ _ pattern) by (done || by fold matched; rewrite Hm).
    cbn [fst]. fold matched. rewrite Hm.
    rewrite (keep_where_ext _ (λ j, len lines - 6 <=? j)).
    + rewrite keep_from. f_equal. unfold len in *. lia.
    + intros j Hj. unfold in_window. cbn [existsb]. rewrite orb_false_r.
      destruct (Z.leb_spec (len lines - 6) j),
        (Z.leb_spec (Z.max 0 (len lines - 1 - 5)) j),
        (Z.leb_spec j (Z.min (len lines - 1) (len lines - 1 + 5))); cbn; lia.
  - intros Hc. rewrite (filter_lines_plain _ _ pattern); [done|done|].
    destruct Hc as [->|Hm]; [right; by left|right; by right].
  - rewrite (filter_lines_plain _ _ pattern); [done|done|by left].
Qed.


End claim_context.


(** The theorem at the level "error" on a log of three lines. *)
Lemma context_expansion_witness :
  TaskLogs.patterns_get (Py.py "error") = Some TaskLogs.pattern_error
  ∧ (@TaskLogs.filter_lines ascii_only
       [Py.py "INFO a"; Py.py "ERROR b"; Py.py "INFO c"] (Some (Py.py "error")) None).1
    = filter (λ line, @Re.search ascii_only TaskLogs.pattern_error line = true)
        [Py.py "INFO a"; Py.py "ERROR b"; Py.py "INFO c"].
Proof.
  split; [reflexivity|].
  exact (proj2 (proj2 (proj2 (proj2
    (@context_expansion ascii_only [Py.py "INFO a"; Py.py "ERROR b"; Py.py "INFO c"]
       (Py.py "error") TaskLogs.pattern_error 1 eq_refl))))).
Defined.

Local Open Scope Z_scope.

Section claim_levels.
Import Py Re TaskLogs.
Context `{Unicode}.

(** Level filtering without context keeps exactly the lines the
    pattern of the level finds, and counts them. *)
Lemma level_filter_exact (lines : list str) (level : str) (pattern : regex) :
  patterns_get level = Some pattern →
  filter_lines lines (Some level) (Some 0)
  = (filter (λ line, search pattern line = true) lines,
     len (filter (λ line, search pattern line = true) lines)).
Proof.
  intros Hp. rewrite (filter_lines_plain _ _ pattern) by (done || (right; by left)).
  f_equal. unfold len. by rewrite matched_indices_length.
Qed.

(** The scenario of the specification: two of three lines match
    "error". *)
Lemma level_error_scenario :
  _filter_logs (py "ERROR a" ++ NL ++ py "INFO b" ++ NL ++ py "ERROR c")
    (Some (py "error")) (Some 0) None 100000
  = (py "ERROR a" ++ NL ++ py "ERROR c", false, Stats 15 3 2 2).
Proof. by vm_compute. Qed.

(** C3 (the code departs from its documentation). The tool's
    documentation makes the levels cumulative: "warning" is WARN,
    WARNING and the error patterns, "info" is INFO and the warning and
    error patterns. The patterns of [_filter_logs] are not: a Traceback
    or Exception line matches "error" but neither "warning" nor "info",
    and a WARNING or FATAL line matches "warning" but not "info". *)
Theorem levels_not_cumulative :
  search pattern_error (py "Traceback (most recent call last):") = true
  ∧ search pattern_warning (py "Traceback (most recent call last):") = false
  ∧ search pattern_info (py "Traceback (most recent call last):") = false
  ∧ search pattern_error (py "ValueError: Exception raised") = true
  ∧ search pattern_warning (py "ValueError: Exception raised") = false
  ∧ search pattern_warning (py "WARNING subtle issue") = true
  ∧ search pattern_info (py "WARNING subtle issue") = false
  ∧ search pattern_warning (py "FATAL out of memory") = true
  ∧ search pattern_info (py "FATAL out of memory") = false
  ∧ (_filter_logs (py "WARNING a" ++ NL ++ py "INFO b") (Some (py "warning")) (Some 0) None 1000).1.1
    = py "WARNING a"
  ∧ (_filter_logs (py "WARNING a" ++ NL ++ py "INFO b") (Some (py "info")) (Some 0) None 1000).1.1
    = py "INFO b".
Proof. repeat split; by vm_compute. Qed.

End claim_levels.

Section claim_auto_tail.
Import Py Re TaskLogs.
Context `{Unicode}.

Lemma pick_expand_length (lines : list str) (c : Z) (matched : list Z) :
  (length (pick lines (sorted (expand (len lines) c matched))) ≤ length lines)%nat.
Proof. rewrite sorted_expand, pick_filter. apply keep_where_length. Qed.

Lemma filter_lines_length (lines : list str) (filter_level : option str)
    (context_lines : option Z) :
  (length (filter_lines lines filter_level context_lines).1 ≤ length lines)%nat.
Proof.
  unfold filter_lines.
  destruct filter_level as [level|]; [|done].
  destruct (truthy level); [|done].
  destruct (patterns_get level) as [pattern|]; [|done].
  assert (Hplain : (length (pick lines (matched_indices pattern lines)) ≤ length lines)%nat).
  { rewrite pick_matched. apply length_filter. }
  destruct context_lines as [c|]; [|done].
  destruct (negb (c =? 0) && truthy (matched_indices pattern lines)); [|done].
  apply pick_expand_length.
Qed.

(** [returned_lines] never exceeds the number of lines of the input. *)
Lemma returned_lines_le (raw_log : str) (filter_level : option str)
    (context_lines tail_lines : option Z) (max_bytes : Z) :
  returned_lines (_filter_logs raw_log filter_level context_lines tail_lines max_bytes).2
  ≤ len (splitlines raw_log).
Proof.
  unfold _filter_logs. cbv zeta.
  assert (Hcont : ∀ ls : list str, (length ls ≤ length (splitlines raw_log))%nat →
    returned_lines
      (let '(lines0, mc) := filter_lines ls filter_level context_lines in
       let '(result, truncated) := size_cap (join NL lines0) max_bytes in
       (result, truncated,
        Stats (len (encode result)) (len (splitlines raw_log)) (len lines0) mc)).2
    ≤ len (splitlines raw_log)).
  { intros ls Hls. pose proof (filter_lines_length ls filter_level context_lines) as Hl.
    destruct (filter_lines ls filter_level context_lines) as [lines0 mc].
    destruct (size_cap (join NL lines0) max_bytes). cbn in *. unfold len. lia. }
  destruct tail_lines as [t|]; [|by apply Hcont].
  destruct (0 <=? t); [|by apply Hcont].
  destruct (t =? 0).
  - cbn. apply len_nonneg.
  - apply Hcont. unfold slice_from. rewrite length_drop. lia.
Qed.



End claim_auto_tail.


Local Open Scope Z_scope.

Section flatten_facts.
Import Py Re TaskLogs.

Lemma join_cons2 (sep x y : str) (rest : list str) :
  join sep (x :: y :: rest) = x ++ sep ++ join sep (y :: rest).
Proof. done. Qed.

Lemma join_app_cons (sep : str) (a : list str) (y : str) (b : list str) :
  a ≠ [] → join sep (a ++ y :: b) = join sep a ++ sep ++ join sep (y :: b).
Proof.
  induction a as [|x a IH]; [done|]. intros _.
  destruct a as [|x' a].
  - done.
  - change ((x :: x' :: a) ++ y :: b) with (x :: x' :: (a ++ y :: b)).
    rewrite !join_cons2.
    change (x' :: a ++ y :: b) with ((x' :: a) ++ y :: b).
    rewrite IH by done. by rewrite <- !(assoc_L (++)).
Qed.

Lemma segment_parts_join (first : bool) (seg : segment) :
  join NL (segment_parts first seg)
  = (if first then [] else NL) ++ render_segment seg
  ∧ segment_parts first seg ≠ [].
Proof.
  unfold segment_parts, render_segment, divider.
  destruct (segment_host_text seg) as [host text].
  destruct (truthy (default [] text)), first; cbn [app join]; split;
    rewrite ?app_nil_r, <- ?(assoc_L (++)); done.
Qed.

Lemma flatten_parts_nonempty (first : bool) (seg : segment) (rest : list segment) :
  flatten_parts first (seg :: rest) ≠ [].
Proof.
  cbn [flatten_parts]. intros Hnil%app_eq_nil.
  by destruct (segment_parts_join first seg) as [_ ?], Hnil.
Qed.

Lemma flatten_parts_join (first : bool) (segments : list segment) :
  segments ≠ [] →
  join NL (flatten_parts first segments)
  = (if first then [] else NL) ++ join (NL ++ NL) (render_segment <$> segments).
Proof.
  revert first. induction segments as [|seg rest IH]; intros first Hne; [done|].
  destruct (segment_parts_join first seg) as [Hj Hn].
  destruct rest as [|seg2 rest].
  - cbn [flatten_parts fmap list_fmap join]. by rewrite app_nil_r.
  - change (flatten_parts first (seg :: seg2 :: rest))
      with (segment_parts first seg ++ flatten_parts false (seg2 :: rest)).
    pose proof (flatten_parts_nonempty false seg2 rest) as Hne2.
    destruct (flatten_parts false (seg2 :: rest)) as [|y b] eqn:E; [done|].
    rewrite join_app_cons by done. rewrite Hj, <- E, IH by done.
    cbn [fmap list_fmap]. rewrite join_cons2.
    by rewrite <- !(assoc_L (++)).
Qed.

(** The loop of [_flatten_log_segments] builds the text the
    specification describes: a divider line before each text, one blank
    line between segments. *)
Lemma flatten_log_segments_spec (segments : list segment) :
  _flatten_log_segments segments = flatten_spec segments.
Proof.
  unfold _flatten_log_segments, flatten_spec.
  destruct segments as [|seg rest]; [done|].
  by rewrite flatten_parts_join.
Qed.

(** An empty or absent host gives the token [unknown-host]. *)
Lemma normalize_log_host_unknown :
  _normalize_log_host None = py "unknown-host"
  ∧ _normalize_log_host (Some []) = py "unknown-host".
Proof. done. Qed.

(** The scenario of the specification. *)
Lemma flatten_scenario :
  _flatten_log_segments
    [Pair (Some (py "h1")) (Some (py "A" ++ NL ++ py "B")); Pair (Some []) (Some (py "C"))]
  = py "--- [h1] ---" ++ NL ++ py "A" ++ NL ++ py "B" ++ NL ++ NL
    ++ py "--- [unknown-host] ---" ++ NL ++ py "C".
Proof. by vm_compute. Qed.

Section coerce.
Context `{Ast}.

(** A string that fails the prefix check, or that [ast.literal_eval]
    rejects with ValueError or SyntaxError, or that is another literal,
    is returned unchanged. *)
Lemma coerce_log_text_falls_back (s : str) :
  startswith (py "[('") (strip isspace s) = false
  ∨ literal_eval s = LitValueError ∨ literal_eval s = LitSyntaxError
  ∨ literal_eval s = LitOther →
  _coerce_log_text (RStr s) = inr s.
Proof.
  intros Hs. unfold _coerce_log_text.
  destruct (startswith _ _); [|done].
  destruct Hs as [?|[->|[->| ->]]]; done.
Qed.

Lemma coerce_log_text_sequence (s : str) (items : list segment) :
  startswith (py "[('") (strip isspace s) = true →
  literal_eval s = LitSequence items →
  _coerce_log_text (RStr s) = inr (flatten_spec items).
Proof.
  intros Hs Hl. unfold _coerce_log_text. by rewrite Hs, Hl, flatten_log_segments_spec.
Qed.

(** C6 (the code misses a case). The printable form of a list is parsed
    with [ast.literal_eval] under [except (ValueError, SyntaxError)]
    only: when the prefix check passes and [literal_eval] raises
    TypeError (as it does on a set display that holds a list),
    MemoryError or RecursionError, [_coerce_log_text] raises too
    instead of returning the text. *)
Theorem coerce_log_text_raises (s : str) :
  startswith (py "[('") (strip isspace s) = true →
  (literal_eval s = LitTypeError → _coerce_log_text (RStr s) = inl TypeError)
  ∧ (literal_eval s = LitMemoryError → _coerce_log_text (RStr s) = inl MemoryError)
  ∧ (literal_eval s = LitRecursionError → _coerce_log_text (RStr s) = inl RecursionError).
Proof.
  intros Hs. unfold _coerce_log_text. rewrite Hs.
  repeat split; by intros ->.
Qed.

End coerce.
End flatten_facts.

(** The theorem at the text [[('h', {[]})]]. *)
Lemma coerce_log_text_raises_witness :
  Py.startswith (Py.py "[('") (Py.strip Py.isspace (Py.py "[('h', {[]})]")) = true
  ∧ @TaskLogs.literal_eval TaskLogs.ast_sample(Py.py "[('h', {[]})]") = TaskLogs.LitTypeError
  ∧ @TaskLogs._coerce_log_text TaskLogs.ast_sample(TaskLogs.RStr (Py.py "[('h', {[]})]"))
    = inl TaskLogs.TypeError.
Proof.
  split; [reflexivity|]. split; [reflexivity|].
  exact (proj1 (@coerce_log_text_raises TaskLogs.ast_sample(Py.py "[('h', {[]})]") eq_refl) eq_refl).
Defined.

Local Open Scope Z_scope.

Section claim_precedence.
Import Py Urllib Validation UrlUtils.
Context `{Unicode}.
Variable reg : instances.

Lemma validate_instance_key_ok (value : str) :
  truthy value = true → INSTANCE_KEY_PATTERN value = true →
  validate_instance_key value = Ok value.
Proof. intros Ht Hp. unfold validate_instance_key. by rewrite Ht, Hp. Qed.

Lemma validate_instance_key_invalid (value : str) :
  truthy value = true → INSTANCE_KEY_PATTERN value = false →
  validate_instance_key value = Err (InvalidInstance value).
Proof. intros Ht Hp. unfold validate_instance_key. by rewrite Ht, Hp. Qed.

(** C7, as the code has it. An instance that is given is checked
    against the instance key pattern first: one that fails the check
    is refused as an invalid instance, whatever the URL. Otherwise:
    with both given the URL is parsed, a parse error is passed on, and
    the result is InstanceMismatch exactly when the parsed instance
    differs from the given one ([str_eqb] is equality, lemma
    [str_eqb_eq]), the parse result otherwise; with only
    the URL, its parse result; with only the instance, the instance
    must exist and the target has route "unknown" and no identifier;
    with neither, MissingTarget. An empty string counts as not given. *)
Theorem resolve_and_validate_precedence (ui_url instance : option str) :
  let url := default [] ui_url in
  let inst := default [] instance in
  (given instance = true → INSTANCE_KEY_PATTERN inst = false →
     resolve_and_validate reg ui_url instance = Err (InvalidInstance inst))
  ∧ (given ui_url = true → given instance = true → INSTANCE_KEY_PATTERN inst = true →
     resolve_and_validate reg ui_url instance
     = match parse_airflow_ui_url reg url with
       | Ok parsed =>
           if str_eqb (UrlUtils.instance parsed) inst then Ok parsed
           else Err (InstanceMismatch (UrlUtils.instance parsed) inst)
       | Err e => Err e
       end)
  ∧ (given ui_url = true → given instance = false →
     resolve_and_validate reg ui_url instance = parse_airflow_ui_url reg url)
  ∧ (given ui_url = false → given instance = true → INSTANCE_KEY_PATTERN inst = true →
     resolve_and_validate reg ui_url instance
     = match dict_get reg inst with
       | Some _ => Ok {| UrlUtils.instance := inst; route := py "unknown"; dag_id := None;
                         dag_run_id := None; task_id := None; try_number := None |}
       | None => Err (UnknownInstance inst)
       end)
  ∧ (given ui_url = false → given instance = false →
     resolve_and_validate reg ui_url instance = Err MissingTarget).
Proof.
  intros url inst. subst url inst. unfold resolve_and_validate.
  split; [|split; [|split; [|split]]].
  - intros Hi Hp. rewrite Hi.
    assert (Ht : truthy (default [] instance) = true) by (by destruct instance).
    by rewrite (validate_instance_key_invalid _ Ht Hp).
  - intros Hu Hi Hp. rewrite Hi.
    assert (Ht : truthy (default [] instance) = true) by (by destruct instance).
    rewrite (validate_instance_key_ok _ Ht Hp). cbn.
    rewrite Hu. cbn [given]. rewrite Ht. cbn [andb].
    destruct (parse_airflow_ui_url reg (default [] ui_url)) as [parsed|e]; [|done]. cbn.
    by destruct (str_eqb (UrlUtils.instance parsed) (default [] instance)).
  - intros Hu Hi. rewrite Hi. cbn. by rewrite Hu, Hi.
  - intros Hu Hi Hp. rewrite Hi.
    assert (Ht : truthy (default [] instance) = true) by (by destruct instance).
    rewrite (validate_instance_key_ok _ Ht Hp). cbn.
    rewrite Hu. cbn [given]. rewrite Ht. cbn [andb negb]. done.
  - intros Hu Hi. rewrite Hi. cbn. by rewrite Hu, Hi.
Qed.

End claim_precedence.

(** The scenario of the specification: a URL of "stg" with the instance
    "prod" given. *)
Lemma resolve_and_validate_precedence_witness :
  @UrlUtils.resolve_and_validate ascii_only UrlUtils.sample_registry
    (Some (Py.py "https://airflow.stg.example.com/dags/d1/grid")) (Some (Py.py "prod"))
  = Err (InstanceMismatch (Py.py "stg") (Py.py "prod")).
Proof.
  rewrite (proj1 (proj2 (@resolve_and_validate_precedence ascii_only UrlUtils.sample_registry
    (Some (Py.py "https://airflow.stg.example.com/dags/d1/grid")) (Some (Py.py "prod"))))
    eq_refl eq_refl eq_refl).
  reflexivity.
Defined.

(** C7 as stated fails: with both given, the parsed instance "stg"
    differs from the given "no such!", and the error is the invalid
    instance, not InstanceMismatch. *)
Lemma resolve_and_validate_invalid_instance :
  (∃ parsed,
     @UrlUtils.parse_airflow_ui_url ascii_only UrlUtils.sample_registry
       (Py.py "https://airflow.stg.example.com/dags/d1/grid") = Ok parsed
     ∧ UrlUtils.instance parsed = Py.py "stg"
     ∧ UrlUtils.instance parsed ≠ Py.py "no such!")
  ∧ @UrlUtils.resolve_and_validate ascii_only UrlUtils.sample_registry
      (Some (Py.py "https://airflow.stg.example.com/dags/d1/grid"))
      (Some (Py.py "no such!"))
    = Err (InvalidInstance (Py.py "no such!")).
Proof.
  split; [|by vm_compute].
  eexists. split; [by vm_compute|]. split; [done|]. by apply str_eqb_neq.
Qed.

Local Open Scope Z_scope.

(** * Facts about splitting strings *)

Section split_facts.
Import Py Urllib.

Lemma avoids_app (P : uchar → bool) (s t : str) :
  avoids P (s ++ t) ↔ avoids P s ∧ avoids P t.
Proof. apply Forall_app. Qed.

Lemma avoids_weaken (P Q : uchar → bool) (s : str) :
  (∀ c, P c = false → Q c = false) → avoids P s → avoids Q s.
Proof. intros HPQ Hs. eapply Forall_impl; [exact Hs|exact HPQ]. Qed.


Lemma partition_at (P : uchar → bool) (a : str) (c : uchar) (b : str) :
  avoids P a → P c = true → partition P (a ++ c :: b) = Some (a, b).
Proof.
  intros Ha Hc. induction Ha as [|x a Hx Ha IH]; cbn.
  - by rewrite Hc.
  - by rewrite Hx, IH.
Qed.

Lemma avoids_reverse (P : uchar → bool) (s : str) : avoids P s → avoids P (reverse s).
Proof. unfold avoids. by rewrite Forall_reverse. Qed.


Lemma rpartition_at (P : uchar → bool) (a : str) (c : uchar) (b : str) :
  avoids P b → P c = true → rpartition P (a ++ c :: b) = Some (a, b).
Proof.
  intros Hb Hc. unfold rpartition.
  rewrite reverse_app, reverse_cons, <- (assoc_L (++)). cbn [app].
  rewrite partition_at by (done || by apply avoids_reverse).
  by rewrite !reverse_involutive.
Qed.




Lemma split_avoids (P : uchar → bool) (s : str) : avoids P s → split P s = [s].
Proof. induction 1 as [|c s Hc Hs IH]; [done|]. cbn. by rewrite Hc, IH. Qed.

Lemma split_at (P : uchar → bool) (a : str) (c : uchar) (b : str) :
  avoids P a → P c = true → split P (a ++ c :: b) = a :: split P b.
Proof.
  intros Ha Hc. induction Ha as [|x a Hx Ha IH]; cbn.
  - by rewrite Hc.
  - by rewrite Hx, IH.
Qed.





Lemma rstrip_snoc (P : uchar → bool) (s : str) (c : uchar) :
  P c = false → rstrip P (s ++ [c]) = s ++ [c].
Proof.
  intros Hc. unfold rstrip. rewrite reverse_app.
  change (reverse [c]) with [c]. cbn [app lstrip]. rewrite Hc.
  by rewrite reverse_cons, reverse_involutive.
Qed.

End split_facts.

Local Open Scope Z_scope.

Section claim_host.
Import Py Urllib Validation UrlUtils.
Context `{Unicode}.

Lemma resolve_in_cons (key : str) (inst : InstanceConfig) (rest : instances) (h : str) :
  resolve_in ((key, inst) :: rest) h
  = if host_matches inst h then Some key else resolve_in rest h.
Proof. done. Qed.


Lemma resolve_in_some (reg : instances) (h key : str) :
  resolve_in reg h = Some key
  ↔ ∃ pre inst post, reg = pre ++ (key, inst) :: post
      ∧ host_matches inst h = true
      ∧ Forall (λ kv, host_matches kv.2 h = false) pre.
Proof.
  induction reg as [|[k inst] rest IH].
  - split; [done|]. intros (pre & i & post & Hreg & _). by destruct pre.
  - rewrite resolve_in_cons. destruct (host_matches inst h) eqn:E.
    + split.
      * intros [= ->]. exists [], inst, rest. by repeat split.
      * intros (pre & i & post & Hreg & Hm & Hpre).
        destruct pre as [|[k' i'] pre]; [by injection Hreg as -> _ _|].
        injection Hreg as -> -> _. inversion Hpre as [|? ? Hk' _]; subst.
        cbn in Hk'. congruence.
    + rewrite IH. split.
      * intros (pre & i & post & -> & Hm & Hpre).
        exists ((k, inst) :: pre), i, post. split; [done|]. split; [done|].
        by constructor.
      * intros (pre & i & post & Hreg & Hm & Hpre).
        destruct pre as [|[k' i'] pre].
        -- injection Hreg as -> -> _. congruence.
        -- injection Hreg as -> -> ->. inversion Hpre; subst. by exists pre, i, post.
Qed.

Lemma validate_optional_err (name : str) (value : option str) (pattern : str → bool)
    (e : AirflowToolError) :
  _validate_optional name value pattern = Err e → ∃ f v, e = InvalidIdentifier f v.
Proof.
  unfold _validate_optional. destruct value as [v|]; [|done].
  destruct (pattern v); [done|]. intros [= <-]. eauto.
Qed.

Lemma validate_dag_id_err (value : option str) (e : AirflowToolError) :
  validate_dag_id value = Err e → ∃ f v, e = InvalidIdentifier f v.
Proof. apply validate_optional_err. Qed.

Lemma validate_dag_run_id_err (value : option str) (e : AirflowToolError) :
  validate_dag_run_id value = Err e → ∃ f v, e = InvalidIdentifier f v.
Proof. apply validate_optional_err. Qed.

Lemma validate_task_id_err (value : option str) (e : AirflowToolError) :
  validate_task_id value = Err e → ∃ f v, e = InvalidIdentifier f v.
Proof. apply validate_optional_err. Qed.

Lemma bind_err {A B : Type} (m : result A) (f : A → result B) (e : AirflowToolError) :
  m ≫= f = Err e → m = Err e ∨ ∃ a, m = Ok a ∧ f a = Err e.
Proof.
  unfold mbind, result_bind. destruct m as [a|e']; intros Hm; [right; by exists a|injection Hm as ->; by left].
Qed.

Lemma route_of_err (segments : list str) (query : list (str * list str))
    (e : AirflowToolError) :
  route_of segments query = Err e → ∃ f v, e = InvalidIdentifier f v.
Proof.
  unfold route_of. intros Hr.
  destruct segments as [|s0 [|s1 rest]]; [done..|].
  destruct (is_str "dags" s0); [|done].
  apply bind_err in Hr as [Hr|(dag & _ & Hr)]; [by apply validate_dag_id_err in Hr|].
  destruct rest as [|s2 rest3]; [done|].
  destruct (is_str "grid" s2 || is_str "graph" s2).
  { apply bind_err in Hr as [Hr|(run & _ & Hr)]; [by apply validate_dag_run_id_err in Hr|done]. }
  destruct (is_str "dagRuns" s2).
  { destruct rest3 as [|s3 rest4]; [done|].
    apply bind_err in Hr as [Hr|(run & _ & Hr)]; [by apply validate_dag_run_id_err in Hr|].
    destruct rest4 as [|s4 [|s5 [|s6 [|s7 rest8]]]]; [done..|].
    destruct (is_str "taskInstances" s4 && is_str "logs" s6); [|done].
    apply bind_err in Hr as [Hr|(task & _ & Hr)]; [by apply validate_task_id_err in Hr|done]. }
  destruct (is_str "task" s2); [|done].
  apply bind_err in Hr as [Hr|(task & _ & Hr)]; [by apply validate_task_id_err in Hr|].
  apply bind_err in Hr as [Hr|(run & _ & Hr)]; [by apply validate_dag_run_id_err in Hr|done].
Qed.


End claim_host.



Local Open Scope Z_scope.

Section claim_table.
Import Py Urllib Validation UrlUtils.
Context `{Unicode}.

Lemma bind_ok {A B : Type} (m : result A) (f : A → result B) (b : B) :
  m ≫= f = Ok b → ∃ a, m = Ok a ∧ f a = Ok b.
Proof.
  unfold mbind, result_bind. destruct m as [a|e]; intros Hm; [by exists a|done].
Qed.

Lemma validate_optional_ok (name : str) (value v : option str) (pattern : str → bool) :
  _validate_optional name value pattern = Ok v →
  v = value ∧ ∀ s, value = Some s → pattern s = true.
Proof.
  unfold _validate_optional. destruct value as [s|].
  - destruct (pattern s) eqn:E; [|done]. intros [= <-]. split; [done|]. by intros ? [= <-].
  - intros [= <-]. by split.
Qed.

Lemma validate_dag_id_ok (value v : option str) :
  validate_dag_id value = Ok v → v = value ∧ ∀ s, value = Some s → DAG_ID_PATTERN s = true.
Proof. apply validate_optional_ok. Qed.

Lemma validate_dag_run_id_ok (value v : option str) :
  validate_dag_run_id value = Ok v →
  v = value ∧ ∀ s, value = Some s → DAG_RUN_ID_PATTERN s = true.
Proof. apply validate_optional_ok. Qed.

Lemma validate_task_id_ok (value v : option str) :
  validate_task_id value = Ok v → v = value ∧ ∀ s, value = Some s → TASK_ID_PATTERN s = true.
Proof. apply validate_optional_ok. Qed.

Lemma validate_instance_key_inv (value key : str) :
  validate_instance_key value = Ok key →
  key = value ∧ truthy value = true ∧ INSTANCE_KEY_PATTERN value = true.
Proof.
  unfold validate_instance_key.
  destruct (truthy value); [|done]. destruct (INSTANCE_KEY_PATTERN value); [|done].
  by intros [= <-].
Qed.

(** What a successful parse went through. *)
Lemma parse_ok_inv (reg : instances) (url : str) (r : ResolvedUrl) :
  parse_airflow_ui_url reg url = Ok r →
  ∃ parsed h,
    urlparse url = Some parsed
    ∧ is_str "http" (lower (scheme parsed)) || is_str "https" (lower (scheme parsed)) = true
    ∧ hostname parsed = Some h ∧ h ≠ []
    ∧ _resolve_instance_key_from_host reg h = Some (instance r)
    ∧ INSTANCE_KEY_PATTERN (instance r) = true
    ∧ route_of (path_segments (path parsed)) (parse_qs (query parsed))
      = Ok (route r, dag_id r, dag_run_id r, task_id r, try_number r).
Proof.
  unfold parse_airflow_ui_url. intros Hr.
  destruct (urlparse url) as [parsed|] eqn:Eu; [|done].
  destruct (negb (truthy (lower (scheme parsed)))); [done|].
  destruct (is_str "http" (lower (scheme parsed)) || is_str "https" (lower (scheme parsed)))
    eqn:Es; [|done].
  cbn [negb] in Hr.
  destruct (hostname parsed) as [h|] eqn:Eh; [|done].
  change (default [] (Some h)) with h in Hr.
  destruct h as [|c h]; [done|]. cbn [truthy negb] in Hr.
  destruct (_resolve_instance_key_from_host reg (c :: h)) as [key|] eqn:Ek; [|done].
  destruct (negb (truthy key)); [done|].
  apply bind_ok in Hr as (key' & Hk & Hr).
  apply validate_instance_key_inv in Hk as (-> & _ & Hp).
  apply bind_ok in Hr as ([[[[route d] run] task] try] & Hroute & Hr).
  injection Hr as <-. cbn.
  exists parsed, (c :: h). by repeat split.
Qed.

Lemma keyword_cons (s : str) (segments : list str) (i : nat) (lit : string) :
  keyword (s :: segments) (S i) lit = keyword segments i lit.
Proof. done. Qed.

Lemma keyword_here (s : str) (segments : list str) (lit : string) :
  keyword (s :: segments) 0 lit = is_str lit s.
Proof. done. Qed.

Lemma keyword_nil (i : nat) (lit : string) : keyword [] i lit = false.
Proof. by destruct i. Qed.

Lemma is_str_eq (lit : string) (s : str) : is_str lit s = true → s = py lit.
Proof. apply str_eqb_eq. Qed.

Lemma keyword_length (segments : list str) (i : nat) (lit : string) :
  keyword segments i lit = true → (i < length segments)%nat.
Proof.
  unfold keyword. destruct (segments !! i) eqn:E; [|done].
  intros _. by eapply lookup_lt_Some.
Qed.

Lemma keyword_app (segments extra : list str) (i : nat) (lit : string) :
  (i < length segments)%nat → keyword (segments ++ extra) i lit = keyword segments i lit.
Proof. intros Hi. unfold keyword. by rewrite lookup_app_l. Qed.

Lemma row_of_cons2 (s0 s1 : str) (rest : list str) :
  row_of (s0 :: s1 :: rest)
  = if is_str "dags" s0 then
      if keyword rest 0 "grid" then py "grid"
      else if keyword rest 0 "graph" then py "graph"
      else if keyword rest 0 "dagRuns" && bool_decide (2 ≤ length rest)%nat then
        if bool_decide (6 ≤ length rest)%nat && keyword rest 2 "taskInstances"
           && keyword rest 4 "logs"
        then py "log" else py "dag_run"
      else if keyword rest 0 "task" then py "task"
      else py "unknown"
    else py "unknown".
Proof.
  unfold row_of. rewrite keyword_here, !keyword_cons. cbn [length].
  rewrite (bool_decide_true (2 ≤ S (S (length rest)))%nat) by lia.
  rewrite (bool_decide_ext (4 ≤ S (S (length rest)))%nat (2 ≤ length rest)%nat) by lia.
  rewrite (bool_decide_ext (8 ≤ S (S (length rest)))%nat (6 ≤ length rest)%nat) by lia.
  by rewrite andb_true_r.
Qed.

Ltac py_discr H := apply str_eqb_eq in H; by vm_compute in H.

(** The branch on the segments, row by row. *)
Lemma route_of_row (segments : list str) (query : list (str * list str))
    (route : str) (d r t : option str) (n : option Z) :
  route_of segments query = Ok (route, d, r, t, n) →
  route = row_of segments
  ∧ d = (if keyword segments 0 "dags" && bool_decide (2 ≤ length segments)%nat
         then unquote <$> segments !! 1%nat else None)
  ∧ (route = py "unknown" → r = None ∧ t = None ∧ n = None).
Proof.
  unfold route_of.
  destruct segments as [|s0 [|s1 rest]].
  - intros [= <- <- <- <- <-]. by cbn.
  - intros [= <- <- <- <- <-]. unfold row_of. cbn [length].
    rewrite (bool_decide_false (2 ≤ 1)%nat) by lia. by rewrite andb_false_r.
  - rewrite row_of_cons2, keyword_here. cbn [length].
    rewrite (bool_decide_true (2 ≤ S (S (length rest)))%nat) by lia.
    change ((s0 :: s1 :: rest) !! 1%nat) with (Some s1).
    destruct (is_str "dags" s0); [|by intros [= <- <- <- <- <-]].
    cbn [andb fmap option_fmap option_map].
    intros (dag & [-> _]%validate_dag_id_ok & Hr)%bind_ok.
    destruct rest as [|s2 rest3].
    { injection Hr as <- <- <- <- <-. by rewrite !keyword_nil. }
    rewrite !keyword_here, !keyword_cons. revert Hr.
    destruct (is_str "grid" s2) eqn:Eg.
    { apply is_str_eq in Eg as ->. cbn [orb].
      intros (run & _ & [= <- <- <- <- <-])%bind_ok.
      split; [done|]. split; [done|]. intros Hu. py_discr Hu. }
    destruct (is_str "graph" s2) eqn:Eh.
    { apply is_str_eq in Eh as ->. cbn [orb].
      intros (run & _ & [= <- <- <- <- <-])%bind_ok.
      split; [done|]. split; [done|]. intros Hu. py_discr Hu. }
    cbn [orb]. destruct (is_str "dagRuns" s2) eqn:Ed.
    { apply is_str_eq in Ed as ->.
      change (is_str "task" (py "dagRuns")) with false.
      destruct rest3 as [|s3 rest4].
      { intros [= <- <- <- <- <-]. cbn [length andb].
        by rewrite (bool_decide_false (2 ≤ 1)%nat) by lia. }
      cbn [length]. rewrite (bool_decide_true (2 ≤ S (S (length rest4)))%nat) by lia.
      cbn [andb].
      intros (run & _ & Hr)%bind_ok. revert Hr.
      destruct rest4 as [|s4 [|s5 [|s6 [|s7 rest8]]]];
        try (intros [= <- <- <- <- <-];
             rewrite bool_decide_false by (cbn [length]; lia);
             cbn [andb]; split; [done|]; split; [done|]; intros Hu; py_discr Hu).
      rewrite bool_decide_true by (cbn [length]; lia).
      rewrite !keyword_cons, !keyword_here. cbn [andb].
      destruct (is_str "taskInstances" s4 && is_str "logs" s6).
      - intros (task & _ & [= <- <- <- <- <-])%bind_ok.
        split; [done|]. split; [done|]. intros Hu. py_discr Hu.
      - intros [= <- <- <- <- <-].
        split; [done|]. split; [done|]. intros Hu. py_discr Hu. }
    cbn [andb]. destruct (is_str "task" s2).
    { intros (task & _ & (run & _ & [= <- <- <- <- <-])%bind_ok)%bind_ok.
      split; [done|]. split; [done|]. intros Hu. py_discr Hu. }
    by intros [= <- <- <- <- <-].
Qed.

(** A row selected by grid, graph, task or the log shape stays selected
    when further segments follow. *)
Lemma row_of_app (segments extra : list str) :
  is_str "grid" (row_of segments) || is_str "graph" (row_of segments)
  || is_str "task" (row_of segments) || is_str "log" (row_of segments) = true →
  row_of (segments ++ extra) = row_of segments.
Proof.
  unfold row_of.
  destruct (keyword segments 0 "dags" && bool_decide (2 ≤ length segments)%nat) eqn:E0;
    [|by vm_compute].
  apply andb_true_iff in E0 as [Hk0 Hl2%bool_decide_eq_true].
  rewrite keyword_app, Hk0 by lia.
  rewrite (bool_decide_true (2 ≤ length (segments ++ extra))%nat)
    by (rewrite length_app; lia).
  cbn [andb].
  destruct (keyword segments 2 "grid") eqn:Eg.
  { by rewrite keyword_app, Eg by by eapply keyword_length. }
  destruct (keyword segments 2 "graph") eqn:Eh.
  { pose proof (keyword_length _ _ _ Eh). by rewrite !keyword_app, Eg, Eh by done. }
  destruct (keyword segments 2 "dagRuns" && bool_decide (4 ≤ length segments)%nat) eqn:Ed.
  { apply andb_true_iff in Ed as [Hk2 Hl4%bool_decide_eq_true].
    rewrite !(keyword_app _ _ 2) by lia. rewrite Eg, Eh, Hk2.
    rewrite (bool_decide_true (4 ≤ length (segments ++ extra))%nat)
      by (rewrite length_app; lia).
    cbn [andb].
    destruct (bool_decide (8 ≤ length segments)%nat && keyword segments 4 "taskInstances"
              && keyword segments 6 "logs") eqn:El; [|by vm_compute].
    apply andb_true_iff in El as [[Hl8%bool_decide_eq_true Hk4]%andb_true_iff Hk6].
    rewrite !keyword_app, Hk4, Hk6 by lia.
    by rewrite (bool_decide_true (8 ≤ length (segments ++ extra))%nat)
      by (rewrite length_app; lia). }
  destruct (keyword segments 2 "task") eqn:Et; [|by vm_compute].
  intros _. pose proof (keyword_length _ _ _ Et) as Hl3.
  rewrite !(keyword_app _ _ 2), Eg, Eh, Et by done.
  destruct (keyword segments 2 "dagRuns") eqn:Ek2; [|done].
  cbn [andb] in Ed. apply bool_decide_eq_false in Ed.
  unfold keyword in Ek2, Et. destruct (segments !! 2%nat) as [s|]; [|done].
  apply is_str_eq in Ek2 as ->. by vm_compute in Et.
Qed.

(** C8, as the code has it. A URL that parses selects the row of the
    table by the keywords at their positions and by a least number of
    segments ([row_of]): segments after those of the row do not unselect
    it. The DAG id is the decoded second segment as soon as the path has
    two segments and starts with "dags", also when the route is
    "unknown"; the run id, the task id and the try number are null
    whenever the route is "unknown". *)
Theorem path_table (reg : instances) (url : str) (r : ResolvedUrl) :
  parse_airflow_ui_url reg url = Ok r →
  ∃ parsed,
    urlparse url = Some parsed
    ∧ let segments := path_segments (path parsed) in
      route r = row_of segments
      ∧ dag_id r = (if keyword segments 0 "dags" && bool_decide (2 ≤ length segments)%nat
                    then unquote <$> segments !! 1%nat else None)
      ∧ (route r = py "unknown" →
           dag_run_id r = None ∧ task_id r = None ∧ try_number r = None)
      ∧ (∀ extra : list str,
           is_str "grid" (route r) || is_str "graph" (route r)
           || is_str "task" (route r) || is_str "log" (route r) = true →
           row_of (segments ++ extra) = route r).
Proof.
  intros (parsed & h & Hu & _ & _ & _ & _ & _ & Hroute)%parse_ok_inv.
  exists parsed. split; [done|]. cbv zeta.
  apply route_of_row in Hroute as (Hrow & Hdag & Hunknown).
  split; [done|]. split; [done|]. split; [done|].
  intros extra Hr. rewrite Hrow in Hr |- *. by apply row_of_app.
Qed.

End claim_table.

(** The theorem at a URL of the log shape. *)
Lemma path_table_witness :
  ∃ parsed,
    @Urllib.urlparse ascii_only
      (Py.py "https://airflow.stg.example.com/dags/d1/dagRuns/r1/taskInstances/t1/logs/2")
    = Some parsed
    ∧ UrlUtils.row_of (UrlUtils.path_segments (Urllib.path parsed)) = Py.py "log".
Proof.
  destruct (@path_table ascii_only UrlUtils.sample_registry
    (Py.py "https://airflow.stg.example.com/dags/d1/dagRuns/r1/taskInstances/t1/logs/2")
    {| UrlUtils.instance := Py.py "stg"; UrlUtils.route := Py.py "log";
       UrlUtils.dag_id := Some (Py.py "d1"); UrlUtils.dag_run_id := Some (Py.py "r1");
       UrlUtils.task_id := Some (Py.py "t1"); UrlUtils.try_number := Some 2 |}
    eq_refl) as (parsed & Hu & Hrow & _).
  exists parsed. split; [exact Hu|]. symmetry. exact Hrow.
Defined.

(** C8 as stated fails twice. A path of five segments, which is no row
    of the table, selects the row "grid" by its first three segments;
    and the path [dags/d1], which is no row either, gives the route
    "unknown" with a DAG id that is not null. *)
Lemma path_table_not_exact :
  @UrlUtils.parse_airflow_ui_url ascii_only UrlUtils.sample_registry
    (Py.py "https://airflow.stg.example.com/dags/d1/grid/extra/more")
  = Ok {| UrlUtils.instance := Py.py "stg"; UrlUtils.route := Py.py "grid";
          UrlUtils.dag_id := Some (Py.py "d1"); UrlUtils.dag_run_id := None;
          UrlUtils.task_id := None; UrlUtils.try_number := None |}
  ∧ @UrlUtils.parse_airflow_ui_url ascii_only UrlUtils.sample_registry
      (Py.py "https://airflow.stg.example.com/dags/d1")
    = Ok {| UrlUtils.instance := Py.py "stg"; UrlUtils.route := Py.py "unknown";
            UrlUtils.dag_id := Some (Py.py "d1"); UrlUtils.dag_run_id := None;
            UrlUtils.task_id := None; UrlUtils.try_number := None |}.
Proof. split; by vm_compute. Qed.

Local Open Scope N_scope.

(** * Percent-encoding *)

Section quote_facts.
Import Py Urllib.

Ltac bdet :=
  repeat match goal with
  | |- context [N.ltb ?a ?b] =>
      first [rewrite (proj2 (N.ltb_lt a b)) by lia | rewrite (proj2 (N.ltb_ge a b)) by lia]
  | |- context [N.leb ?a ?b] =>
      first [rewrite (proj2 (N.leb_le a b)) by lia | rewrite (proj2 (N.leb_gt a b)) by lia]
  | |- context [N.eqb ?a ?b] =>
      first [rewrite (proj2 (N.eqb_eq a b)) by lia | rewrite (proj2 (N.eqb_neq a b)) by lia]
  end.

Ltac bhyp H :=
  repeat match type of H with
  | context [N.ltb ?a ?b] => destruct (N.ltb_spec a b); cbn [andb orb negb] in H
  | context [N.leb ?a ?b] => destruct (N.leb_spec a b); cbn [andb orb negb] in H
  | context [N.eqb ?a ?b] => destruct (N.eqb_spec a b); cbn [andb orb negb] in H
  end.

Lemma cp_chr (n : N) : is_scalar n = true → cp (chr n) = n.
Proof.
  intros Hn. unfold chr, mk_uchar.
  generalize (eq_refl (is_scalar n)).
  generalize (is_scalar n) at 2 3.
  intros b; destruct b; intros E; [done|congruence].
Qed.

Lemma cp_chr_small (n : N) : n < 0xD800 → cp (chr n) = n.
Proof. intros Hn. apply cp_chr. unfold is_scalar. by bdet. Qed.

Lemma chr_cp (c : uchar) : chr (cp c) = c.
Proof. unfold chr. by rewrite mk_uchar_cp. Qed.

Lemma always_safe_ascii (b : N) : always_safe b = true → b < 128 ∧ b ≠ 37.
Proof. unfold always_safe. intros Hb. bhyp Hb; (done || lia). Qed.

Lemma utf8_char_ascii (n : N) : n < 128 → utf8_char n = [n].
Proof. intros Hn. unfold utf8_char. by bdet. Qed.

Lemma encode_ascii (s : str) : forallb is_ascii s = true → encode s = codes s.
Proof.
  induction s as [|c s IH]; [done|]. cbn [forallb]. intros [Hc Hs]%andb_true_iff.
  rewrite encode_cons, IH by done. rewrite utf8_char_ascii; [done|].
  by apply N.ltb_lt.
Qed.

Lemma utf8_char_bytes (c : uchar) : Forall (λ b, b < 256) (utf8_char (cp c)).
Proof.
  pose proof (cp_bound c) as Hb. unfold utf8_char.
  assert (cp c / 64 < 32 ∨ 0x800 ≤ cp c).
  { destruct (N.lt_ge_cases (cp c) 0x800); [left|by right].
    apply N.Div0.div_lt_upper_bound; lia. }
  assert (cp c / 4096 < 16 ∨ 0x10000 ≤ cp c).
  { destruct (N.lt_ge_cases (cp c) 0x10000); [left|by right].
    apply N.Div0.div_lt_upper_bound; lia. }
  assert (cp c / 262144 < 5) by (apply N.Div0.div_lt_upper_bound; lia).
  pose proof (N.mod_lt (cp c) 64 ltac:(lia)).
  pose proof (N.mod_lt (cp c / 64) 64 ltac:(lia)).
  pose proof (N.mod_lt (cp c / 4096) 64 ltac:(lia)).
  destruct (N.ltb_spec (cp c) 0x80); [repeat constructor; lia|].
  destruct (N.ltb_spec (cp c) 0x800); [repeat constructor; lia|].
  destruct (N.ltb_spec (cp c) 0x10000); repeat constructor; lia.
Qed.

Lemma encode_bytes (s : str) : Forall (λ b, b < 256) (encode s).
Proof.
  induction s as [|c s IH]; [constructor|].
  rewrite encode_cons. apply Forall_app. split; [apply utf8_char_bytes|done].
Qed.

Lemma hex_upper_cp (d : N) : d < 16 → cp (hex_upper d) = hex_code d.
Proof.
  intros Hd. unfold hex_upper, hex_code. apply cp_chr_small.
  destruct (N.ltb_spec d 10); lia.
Qed.

Lemma hex_value_code (d : N) : d < 16 → hex_value (hex_code d) = Some d.
Proof.
  intros Hd. unfold hex_value, hex_code.
  destruct (N.ltb_spec d 10); bdet; cbn [andb]; f_equal; lia.
Qed.

Lemma hex_code_safe (d : N) : d < 16 → always_safe (hex_code d) = true.
Proof.
  intros Hd. unfold always_safe, hex_code.
  destruct (N.ltb_spec d 10); bdet; done.
Qed.

Lemma quote_byte_codes (b : N) : b < 256 → codes (quote_byte b) = quote_codes b.
Proof.
  intros Hb. unfold quote_byte, quote_codes.
  destruct (always_safe b) eqn:Es.
  - apply always_safe_ascii in Es as [? _]. cbn. by rewrite cp_chr_small by lia.
  - assert (b / 16 < 16) by (apply N.Div0.div_lt_upper_bound; lia).
    pose proof (N.mod_lt b 16 ltac:(lia)).
    unfold codes. rewrite fmap_app. change (cp <$> py "%") with [37].
    cbn [fmap list_fmap app]. by rewrite !hex_upper_cp by done.
Qed.

Lemma quote_byte_chars (b : N) : b < 256 → Forall (λ c, quoted_char c = true) (quote_byte b).
Proof.
  intros Hb. apply Forall_forall. intros c Hc.
  assert (Hin : cp c ∈ quote_codes b).
  { rewrite <- quote_byte_codes by done. unfold codes. by apply list_elem_of_fmap_2. }
  unfold quoted_char, quote_codes in *.
  assert (b / 16 < 16) by (apply N.Div0.div_lt_upper_bound; lia).
  pose proof (N.mod_lt b 16 ltac:(lia)).
  destruct (always_safe b) eqn:Es.
  - apply list_elem_of_singleton in Hin as ->. by rewrite Es.
  - apply elem_of_cons in Hin as [->|Hin]; [done|].
    apply elem_of_cons in Hin as [->|Hin]; [by rewrite hex_code_safe|].
    apply list_elem_of_singleton in Hin as ->. by rewrite hex_code_safe.
Qed.

Lemma quote_cons (c : uchar) (s : str) :
  quote (c :: s) = (utf8_char (cp c) ≫= quote_byte) ++ quote s.
Proof. unfold quote. by rewrite encode_cons, bind_app. Qed.

Lemma quote_app (s t : str) : quote (s ++ t) = quote s ++ quote t.
Proof. unfold quote. by rewrite encode_app, bind_app. Qed.

Lemma bind_chars (bs : bytes) :
  Forall (λ b, b < 256) bs → Forall (λ c, quoted_char c = true) (bs ≫= quote_byte).
Proof.
  induction 1 as [|b bs Hb Hbs IH]; [constructor|].
  cbn. apply Forall_app. split; [by apply quote_byte_chars|done].
Qed.

(** [quote] writes always-safe characters and percent signs only. *)
Lemma quote_chars (s : str) : Forall (λ c, quoted_char c = true) (quote s).
Proof. apply bind_chars, encode_bytes. Qed.

Lemma quoted_char_ascii (c : uchar) : quoted_char c = true → is_ascii c = true.
Proof.
  unfold quoted_char, is_ascii. intros [Hc|Hc%N.eqb_eq]%orb_true_iff; apply N.ltb_lt.
  - by apply always_safe_ascii in Hc as [? _].
  - lia.
Qed.

Lemma quote_ascii (s : str) : forallb is_ascii (quote s) = true.
Proof.
  apply forallb_forall. intros c Hc%list_elem_of_In.
  apply quoted_char_ascii. pose proof (quote_chars s) as Hq.
  rewrite Forall_forall in Hq. by apply Hq.
Qed.

(** [quote] writes none of the characters that [P] holds of, when [P]
    holds of no always-safe character and not of the percent sign. *)
Lemma quote_avoids (P : uchar → bool) (s : str) :
  (∀ c, quoted_char c = true → P c = false) → avoids P (quote s).
Proof. intros HP. eapply Forall_impl; [apply quote_chars|exact HP]. Qed.

Lemma codes_bind (bs : bytes) :
  Forall (λ b, b < 256) bs → codes (bs ≫= quote_byte) = bs ≫= quote_codes.
Proof.
  induction 1 as [|b bs Hb Hbs IH]; [done|].
  cbn. unfold codes in *. by rewrite fmap_app, IH, <- quote_byte_codes.
Qed.

Lemma encode_quote (s : str) : encode (quote s) = encode s ≫= quote_codes.
Proof.
  rewrite encode_ascii by apply quote_ascii. apply codes_bind, encode_bytes.
Qed.

Lemma unquote_to_bytes_quote_codes (bs : bytes) :
  Forall (λ b, b < 256) bs → unquote_to_bytes (bs ≫= quote_codes) = bs.
Proof.
  induction 1 as [|b bs Hb Hbs IH]; [done|].
  cbn [mbind list_bind]. change (list_bind _ _ quote_codes bs) with (bs ≫= quote_codes).
  unfold quote_codes at 1. destruct (always_safe b) eqn:Es.
  - apply always_safe_ascii in Es as [_ Hne]. cbn [app unquote_to_bytes].
    rewrite (proj2 (N.eqb_neq b 37)) by done. by rewrite IH.
  - assert (b / 16 < 16) by (apply N.Div0.div_lt_upper_bound; lia).
    pose proof (N.mod_lt b 16 ltac:(lia)).
    cbn [app unquote_to_bytes]. change (37 =? 37) with true. cbn match.
    rewrite !hex_value_code by done. rewrite IH. f_equal.
    pose proof (N.Div0.div_mod b 16). lia.
Qed.

(** [unquote_to_bytes] undoes the bytes of [quote]. *)
Lemma unquote_to_bytes_quote (s : str) : unquote_to_bytes (encode (quote s)) = encode s.
Proof. rewrite encode_quote. apply unquote_to_bytes_quote_codes, encode_bytes. Qed.

Lemma ascii_runs_ascii (s : str) :
  s ≠ [] → forallb is_ascii s = true → ascii_runs s = [(true, s)].
Proof.
  induction s as [|c s IH]; [done|]. intros _. cbn [forallb].
  intros [Hc Hs]%andb_true_iff. cbn [ascii_runs].
  destruct s as [|c' s]; [cbn; by rewrite Hc|].
  rewrite IH by done. by rewrite Hc.
Qed.

Lemma quote_char_cases (c : uchar) :
  utf8_char (cp c) ≫= quote_byte = [c]
  ∨ ∃ t, utf8_char (cp c) ≫= quote_byte = chr 37 :: t.
Proof.
  pose proof (cp_bound c) as Hb. unfold utf8_char.
  assert (Hnot : ∀ b, 128 ≤ b → always_safe b = false).
  { intros b Hb'. destruct (always_safe b) eqn:E; [|done].
    apply always_safe_ascii in E. lia. }
  destruct (N.ltb_spec (cp c) 0x80).
  - cbn. rewrite app_nil_r. unfold quote_byte. destruct (always_safe (cp c)).
    + left. by rewrite chr_cp.
    + right. by eexists.
  - right. destruct (N.ltb_spec (cp c) 0x800); [|destruct (N.ltb_spec (cp c) 0x10000)];
      cbn [mbind list_bind]; unfold quote_byte at 1;
      (rewrite Hnot by (etrans; [|apply N.le_add_r]; by vm_compute)); by eexists.
Qed.

Lemma contains_app (P : uchar → bool) (s t : str) :
  contains P (s ++ t) = contains P s || contains P t.
Proof. apply existsb_app. Qed.

Lemma quote_unchanged (s : str) : contains (is_ch "%") (quote s) = false → quote s = s.
Proof.
  induction s as [|c s IH]; [done|].
  rewrite quote_cons, contains_app. intros [Hc Hs]%orb_false_iff.
  destruct (quote_char_cases c) as [->|[t Ht]].
  - by rewrite IH.
  - rewrite Ht in Hc. by vm_compute in Hc.
Qed.

(** [unquote] undoes [quote]. *)
Lemma unquote_quote (s : str) : unquote (quote s) = s.
Proof.
  unfold unquote. destruct (contains (is_ch "%") (quote s)) eqn:E.
  - rewrite ascii_runs_ascii; [|by destruct (quote s)|apply quote_ascii].
    cbn. by rewrite app_nil_r, unquote_to_bytes_quote, decode_encode.
  - by apply quote_unchanged.
Qed.

End quote_facts.

Local Open Scope Z_scope.

(** * [int] and [str] of an int *)

Section int_facts.
Import Py Urllib.












Section with_unicode.
Context `{Unicode}.


End with_unicode.
End int_facts.

Local Open Scope Z_scope.

(** * URLs as [build_airflow_ui_url] writes them *)

Section built_urls.
Import Py Urllib Validation UrlUtils.


(** The characters [quote] never writes. *)
Lemma quoted_not (a : ascii) (c : uchar) :
  always_safe (N_of_ascii a) = false → N_of_ascii a ≠ 37%N →
  quoted_char c = true → is_ch a c = false.
Proof.
  intros Ha Hp Hc. unfold is_ch. destruct (N.eqb_spec (cp c) (N_of_ascii a)) as [E|]; [|done].
  unfold quoted_char in Hc. rewrite E, Ha in Hc. cbn in Hc. by apply N.eqb_eq in Hc.
Qed.

Lemma quoted_not_unsafe (c : uchar) : quoted_char c = true → unsafe_url_byte c = false.
Proof.
  intros Hc. unfold unsafe_url_byte.
  pose proof (quoted_not "009" c eq_refl ltac:(done) Hc) as H9.
  pose proof (quoted_not "010" c eq_refl ltac:(done) Hc) as H10.
  pose proof (quoted_not "013" c eq_refl ltac:(done) Hc) as H13.
  unfold is_ch in *. change (N_of_ascii "009") with 9%N in *.
  change (N_of_ascii "010") with 10%N in *. change (N_of_ascii "013") with 13%N in *.
  by rewrite H9, H10, H13.
Qed.



Lemma split_join (P : uchar → bool) (c : uchar) (items : list str) :
  P c = true → items ≠ [] → Forall (avoids P) items →
  split P (join [c] items) = items.
Proof.
  intros Hc Hne Hitems. induction Hitems as [|x items Hx Hitems IH]; [done|].
  destruct items as [|y items].
  - cbn. by apply split_avoids.
  - rewrite join_cons2. cbn [app]. rewrite split_at by done. f_equal. by apply IH.
Qed.


Section with_unicode.
Context `{Unicode}.


End with_unicode.
End built_urls.

Local Open Scope Z_scope.

(** * Queries as [_encode_query] writes them *)

Section built_queries.
Import Py Urllib Validation UrlUtils.

Lemma encode_query_params (params : list (str * option str)) :
  _encode_query params = join (py "&") (encode_param <$> given_params params).
Proof.
  unfold _encode_query, given_params. f_equal.
  induction params as [|[k [v|]] params IH]; [done|..]; cbn; by rewrite <- IH.
Qed.

Lemma quote_nonempty (s : str) : s ≠ [] → quote s ≠ [].
Proof.
  destruct s as [|c s]; [done|]. intros _. rewrite quote_cons.
  by destruct (quote_char_cases c) as [->|[t ->]].
Qed.

Lemma plus_to_space_quote (s : str) : plus_to_space <$> quote s = quote s.
Proof.
  pose proof (quote_chars s) as Hq. induction Hq as [|c t Hc Ht IH]; [done|].
  cbn [fmap list_fmap]. change (list_fmap _ _ plus_to_space t) with (plus_to_space <$> t).
  rewrite IH. unfold plus_to_space. by rewrite (quoted_not "+" c).
Qed.




Lemma truthy_join_cons (sep x : str) (items : list str) :
  truthy x = true → truthy (join sep (x :: items)) = true.
Proof.
  intros Hx. destruct items as [|y items]; [done|]. rewrite join_cons2. by destruct x.
Qed.

Lemma truthy_encode_param (kv : str * str) : truthy (encode_param kv) = true.
Proof. unfold encode_param. by destruct (quote kv.1). Qed.

Lemma parse_qsl_join (pairs : list (str * str)) :
  Forall (λ kv, kv.2 ≠ []) pairs →
  parse_qsl (join (py "&") (encode_param <$> pairs)) = pairs.
Proof.
  intros Hpairs. destruct pairs as [|kv0 pairs0]; [done|].
  set (pairs := kv0 :: pairs0) in *.
  assert (Havoid : ∀ kv a, always_safe (N_of_ascii a) = false → N_of_ascii a ≠ 37%N →
                           N_of_ascii a ≠ 61%N → avoids (is_ch a) (encode_param kv)).
  { intros kv a Ha1 Ha2 Ha3. unfold encode_param, _encode_segment.
    apply avoids_app. split; [apply quote_avoids; intros c; by apply quoted_not|].
    constructor; [unfold is_ch; apply N.eqb_neq; by intros E; apply Ha3|].
    apply quote_avoids. intros c. by apply quoted_not. }
  unfold parse_qsl.
  assert (truthy (join (py "&") (encode_param <$> pairs)) = true) as ->.
  { subst pairs. rewrite fmap_cons. apply truthy_join_cons, truthy_encode_param. }
  rewrite (split_join (is_ch "&") (of_ascii "&")); [|done|done|].
  2:{ apply Forall_fmap, Forall_forall. intros kv _. by apply Havoid. }
  clearbody pairs. clear kv0 pairs0. induction Hpairs as [|[k v] pairs Hv Hpairs IH]; [done|].
  cbn [fmap list_fmap mbind list_bind] in *.
  change (list_fmap _ _ encode_param pairs) with (encode_param <$> pairs) in *.
  rewrite IH. clear IH.
  rewrite truthy_encode_param.
  unfold encode_param, _encode_segment. cbn [fst snd].
  change (py "=" ++ quote v) with (of_ascii "=" :: quote v).
  rewrite partition_at; [|apply quote_avoids; intros c; by apply quoted_not|done].
  assert (truthy (quote v) = true) as ->.
  { pose proof (quote_nonempty v Hv). by destruct (quote v). }
  by rewrite !plus_to_space_quote, !unquote_quote.
Qed.

(** [parse_qsl] reads back the parameters [_encode_query] wrote. *)
Lemma parse_qsl_encode_query (params : list (str * option str)) :
  Forall (λ kv, kv.2 ≠ []) (given_params params) →
  parse_qsl (_encode_query params) = given_params params.
Proof. intros Hp. rewrite encode_query_params. by apply parse_qsl_join. Qed.



Section with_unicode.
Context `{Unicode}.




End with_unicode.
End built_queries.

Local Open Scope Z_scope.

(** * Round trip *)

Section claim_round_trip.
Import Py Urllib Validation UrlUtils.














Section with_unicode.
Context `{Unicode}.


End with_unicode.
End claim_round_trip.



Local Open Scope Z_scope.

(** * Further properties of the URL builder and resolver *)

Section url_properties.
Import Py Urllib Validation UrlUtils.



(** X2. [parse_qsl] reads back what [_encode_query] wrote: the
    parameters that have a value, in their order, names and values
    unchanged (a plus sign included), when no value is the empty string.
    A parameter whose value is [None] is left out of the query. *)
Theorem encode_query_inverse (params : list (str * option str)) :
  (∀ name value, (name, Some value) ∈ params → value ≠ []) →
  parse_qsl (_encode_query params) = given_params params
  ∧ given_params params = omap (λ kv, pair kv.1 <$> kv.2) params.
Proof.
  intros Hv. split.
  - apply parse_qsl_encode_query. unfold given_params.
    apply Forall_forall. intros [k v] ([k' [v'|]] & Hin & Hp)%list_elem_of_bind; cbn in Hin.
    + apply list_elem_of_singleton in Hin as [= -> ->]. cbn. by eapply Hv.
    + by apply elem_of_nil in Hin.
  - unfold given_params. induction params as [|[k [v|]] params IH]; [done|..]; cbn.
    + f_equal. apply IH. intros n v' Hin. eapply Hv. by right.
    + apply IH. intros n v' Hin. eapply Hv. by right.
Qed.

End url_properties.

Lemma encode_query_inverse_witness :
  Urllib.parse_qsl
    (UrlUtils._encode_query
       [(Py.py "task_id", Some (Py.py "t+1")); (Py.py "map_index", None);
        (Py.py "dag_run_id", Some (Py.py "manual__2025-01-01T00:00:00+00:00"))])
  = [(Py.py "task_id", Py.py "t+1");
     (Py.py "dag_run_id", Py.py "manual__2025-01-01T00:00:00+00:00")].
Proof.
  refine (proj1 (encode_query_inverse
    [(Py.py "task_id", Some (Py.py "t+1")); (Py.py "map_index", None);
     (Py.py "dag_run_id", Some (Py.py "manual__2025-01-01T00:00:00+00:00"))] _)).
  intros name value Hin.
  apply elem_of_cons in Hin as [[= _ ->]|Hin]; [done|].
  apply elem_of_cons in Hin as [[=]|Hin].
  apply elem_of_cons in Hin as [[= _ ->]|Hin]; [done|].
  by apply elem_of_nil in Hin.
Defined.

Local Open Scope Z_scope.

(** * Identifiers *)

Section identifier_properties.
Import Py Urllib Validation UrlUtils.

Ltac unfold_classes :=
  unfold dag_id_char, task_id_char, dag_run_id_char, instance_key_first, always_safe,
    ascii_alnum, ascii_alpha, ascii_upper, ascii_lower, ascii_digit, in_chars, is_ch;
  cbn [String.list_ascii_of_string existsb];
  change (N_of_ascii "_") with 95%N; change (N_of_ascii ".") with 46%N;
  change (N_of_ascii "-") with 45%N; change (N_of_ascii "+") with 43%N;
  change (N_of_ascii ":") with 58%N.

Lemma always_safe_dag_id_char (c : uchar) :
  always_safe (cp c) = dag_id_char c || (cp c =? 126)%N.
Proof. unfold_classes. btauto. Qed.

Lemma task_id_char_dag_id_char (c : uchar) :
  task_id_char c = dag_id_char c || (cp c =? 43)%N.
Proof. unfold_classes. btauto. Qed.

Lemma dag_run_id_char_task_id_char (c : uchar) :
  dag_run_id_char c = task_id_char c || (cp c =? 58)%N.
Proof. unfold_classes. btauto. Qed.

Lemma forallb_impl {A} (P Q : A → bool) (l : list A) :
  (∀ x, P x = true → Q x = true) → forallb P l = true → forallb Q l = true.
Proof.
  intros HPQ. induction l as [|x l IH]; [done|]. cbn.
  intros [Hx Hl]%andb_true_iff. by rewrite (HPQ x Hx), IH.
Qed.

Lemma one_or_more_impl (P Q : uchar → bool) (s : str) :
  (∀ c, P c = true → Q c = true) → one_or_more P s = true → one_or_more Q s = true.
Proof.
  intros HPQ. unfold one_or_more. intros [Ht Hs]%andb_true_iff.
  by rewrite Ht, (forallb_impl P Q s HPQ Hs).
Qed.

Lemma quote_safe (s : str) : Forall (λ c, always_safe (cp c) = true) s → quote s = s.
Proof.
  induction 1 as [|c s Hc Hs IH]; [done|].
  rewrite quote_cons, IH. pose proof (always_safe_ascii _ Hc) as [Hlt _].
  rewrite utf8_char_ascii by done. cbn [mbind list_bind app]. unfold quote_byte.
  by rewrite Hc, chr_cp.
Qed.

Lemma dag_run_id_char_range (c : uchar) :
  dag_run_id_char c = true →
  (65 ≤ cp c ≤ 90 ∨ 97 ≤ cp c ≤ 122 ∨ 48 ≤ cp c ≤ 57 ∨ cp c = 95 ∨ cp c = 46 ∨ cp c = 58
   ∨ cp c = 43 ∨ cp c = 45)%N.
Proof.
  unfold_classes. rewrite !orb_true_iff, !andb_true_iff, !N.leb_le, !N.eqb_eq. intuition discriminate.
Qed.

Ltac bdet :=
  repeat match goal with
  | |- context [N.ltb ?a ?b] =>
      first [rewrite (proj2 (N.ltb_lt a b)) by lia | rewrite (proj2 (N.ltb_ge a b)) by lia]
  | |- context [N.leb ?a ?b] =>
      first [rewrite (proj2 (N.leb_le a b)) by lia | rewrite (proj2 (N.leb_gt a b)) by lia]
  | |- context [N.eqb ?a ?b] =>
      first [rewrite (proj2 (N.eqb_eq a b)) by lia | rewrite (proj2 (N.eqb_neq a b)) by lia]
  end.

(** X3. The identifier patterns are nested: a valid instance key is a
    valid DAG id, a valid DAG id a valid task id, a valid task id a
    valid run id. A valid run id (so every valid identifier) is not
    empty and is made of ASCII characters none of which is white space
    or one of [/?#&=%;@]: a validated identifier cannot add a path
    segment, a query parameter or a fragment to a URL. *)
Theorem identifier_patterns (s : str) :
  (INSTANCE_KEY_PATTERN s = true → DAG_ID_PATTERN s = true)
  ∧ (DAG_ID_PATTERN s = true → TASK_ID_PATTERN s = true)
  ∧ (TASK_ID_PATTERN s = true → DAG_RUN_ID_PATTERN s = true)
  ∧ (DAG_RUN_ID_PATTERN s = true →
       s ≠ []
       ∧ Forall (λ c, is_ascii c = true ∧ isspace c = false
                      ∧ in_chars "/?#&=%;@" c = false) s).
Proof.
  split; [|split; [|split]].
  - unfold INSTANCE_KEY_PATTERN, DAG_ID_PATTERN, one_or_more.
    destruct s as [|c t]; [done|]. cbn [truthy forallb andb].
    intros [Hc ->]%andb_true_iff. unfold dag_id_char at 1.
    unfold instance_key_first in Hc. by rewrite Hc.
  - apply one_or_more_impl. intros c Hc. by rewrite task_id_char_dag_id_char, Hc.
  - apply one_or_more_impl. intros c Hc. by rewrite dag_run_id_char_task_id_char, Hc.
  - unfold DAG_RUN_ID_PATTERN, one_or_more. intros [Ht Hs]%andb_true_iff.
    split; [by destruct s|]. apply Forall_forall. intros c Hc%list_elem_of_In.
    pose proof (proj1 (forallb_forall _ _) Hs c Hc) as Hr.
    apply dag_run_id_char_range in Hr.
    unfold is_ascii, isspace, in_chars, is_ch. cbn [String.list_ascii_of_string existsb].
    change (N_of_ascii "/") with 47%N. change (N_of_ascii "?") with 63%N.
    change (N_of_ascii "#") with 35%N. change (N_of_ascii "&") with 38%N.
    change (N_of_ascii "=") with 61%N. change (N_of_ascii "%") with 37%N.
    change (N_of_ascii ";") with 59%N. change (N_of_ascii "@") with 64%N.
    cbv zeta.
    destruct Hr as [?|[?|[?|[?|[?|[?|[?|?]]]]]]]; bdet; done.
Qed.

Lemma identifier_patterns_witness :
  Validation.DAG_RUN_ID_PATTERN (Py.py "scheduled__2025-11-04T12:15:00+00:00") = true
  ∧ Py.py "scheduled__2025-11-04T12:15:00+00:00" ≠ [].
Proof.
  split; [reflexivity|].
  exact (proj1 (proj2 (proj2 (proj2
    (identifier_patterns (Py.py "scheduled__2025-11-04T12:15:00+00:00")))) eq_refl)).
Defined.

(** X4. A valid DAG id (and so a valid instance key) is written to a
    URL as it is: [_encode_segment] escapes nothing in it. *)
Theorem valid_dag_id_verbatim (dag_id : str) :
  DAG_ID_PATTERN dag_id = true → _encode_segment dag_id = dag_id.
Proof.
  unfold DAG_ID_PATTERN, one_or_more, _encode_segment. intros [_ Hs]%andb_true_iff.
  apply quote_safe, Forall_forall. intros c Hc%list_elem_of_In.
  rewrite always_safe_dag_id_char. by rewrite (proj1 (forallb_forall _ _) Hs c Hc).
Qed.

Lemma valid_dag_id_verbatim_witness :
  UrlUtils._encode_segment (Py.py "etl.daily-load_v2") = Py.py "etl.daily-load_v2".
Proof. exact (valid_dag_id_verbatim (Py.py "etl.daily-load_v2") eq_refl). Defined.

End identifier_properties.

Local Open Scope Z_scope.

(** * Outcomes of the builder and of the resolver *)

Section build_properties.
Import Py Urllib Validation UrlUtils.


Lemma validate_instance_key_err (value : str) (e : AirflowToolError) :
  validate_instance_key value = Err e → e = MissingInstance ∨ e = InvalidInstance value.
Proof.
  unfold validate_instance_key. destruct (truthy value); cbn [negb].
  - destruct (INSTANCE_KEY_PATTERN value); cbn [negb]; [done|]. intros [= <-]. by right.
  - intros [= <-]. by left.
Qed.

Lemma dict_get_elem_of {V} (d : list (str * V)) (name : str) (v : V) :
  dict_get d name = Some v → (name, v) ∈ d.
Proof.
  induction d as [|[k w] d IH]; [done|]. cbn.
  destruct (str_eqb k name) eqn:E.
  - apply str_eqb_eq in E as ->. intros [= ->]. by left.
  - intros Hd. right. by apply IH.
Qed.




End build_properties.


Local Open Scope Z_scope.

(** * Outcomes of the parser *)

Section parse_properties.
Import Py Urllib Validation UrlUtils.
Context `{Unicode}.

Ltac py_discr H := apply str_eqb_eq in H; by vm_compute in H.

Lemma route_of_valid (segments : list str) (query : list (str * list str))
    (route : str) (d r t : option str) (n : option Z) :
  route_of segments query = Ok (route, d, r, t, n) →
  (∀ s, d = Some s → DAG_ID_PATTERN s = true)
  ∧ (∀ s, r = Some s → DAG_RUN_ID_PATTERN s = true)
  ∧ (∀ s, t = Some s → TASK_ID_PATTERN s = true)
  ∧ (is_Some n → route = py "log").
Proof.
  assert (Hnone : ∀ A (x : option A), x = None → ¬ is_Some x) by (intros A x -> [? ?]; done).
  unfold route_of.
  destruct segments as [|s0 [|s1 rest]];
    [intros [= <- <- <- <- <-]; repeat split; (done || by intros [? ?])..|].
  destruct (is_str "dags" s0);
    [|intros [= <- <- <- <- <-]; repeat split; (done || by intros [? ?])].
  intros (dag & [-> Hd]%validate_dag_id_ok & Hr)%bind_ok.
  destruct rest as [|s2 rest3];
    [injection Hr as <- <- <- <- <-; repeat split; (done || by intros [? ?])|].
  revert Hr. destruct (is_str "grid" s2 || is_str "graph" s2).
  { intros (run & [-> Hrun]%validate_dag_run_id_ok & [= <- <- <- <- <-])%bind_ok.
    repeat split; (done || by intros [? ?]). }
  destruct (is_str "dagRuns" s2).
  { destruct rest3 as [|s3 rest4];
      [intros [= <- <- <- <- <-]; repeat split; (done || by intros [? ?])|].
    intros (run & [-> Hrun]%validate_dag_run_id_ok & Hr)%bind_ok. revert Hr.
    destruct rest4 as [|s4 [|s5 [|s6 [|s7 rest8]]]];
      try (intros [= <- <- <- <- <-]; repeat split; (done || by intros [? ?])).
    destruct (is_str "taskInstances" s4 && is_str "logs" s6).
    - intros (task & [-> Htask]%validate_task_id_ok & [= <- <- <- <- <-])%bind_ok.
      repeat split; done.
    - intros [= <- <- <- <- <-]. repeat split; (done || by intros [? ?]). }
  destruct (is_str "task" s2).
  { intros (task & [-> Htask]%validate_task_id_ok
            & (run & [-> Hrun]%validate_dag_run_id_ok & [= <- <- <- <- <-])%bind_ok)%bind_ok.
    repeat split; (done || by intros [? ?]). }
  intros [= <- <- <- <- <-]. repeat split; (done || by intros [? ?]).
Qed.

Lemma row_of_names (segments : list str) :
  row_of segments ∈ [py "grid"; py "graph"; py "dag_run"; py "task"; py "log"; py "unknown"].
Proof.
  unfold row_of. repeat case_match; set_solver.
Qed.

(** X7. What [parse_airflow_ui_url] returns is validated: the instance
    key and every identifier that is not null match the pattern of
    their kind, the route is one of the six route names, and only the
    route "log" has a try number. *)
Theorem parse_validated (reg : instances) (url : str) (r : ResolvedUrl) :
  parse_airflow_ui_url reg url = Ok r →
  INSTANCE_KEY_PATTERN (instance r) = true
  ∧ (∀ s, dag_id r = Some s → DAG_ID_PATTERN s = true)
  ∧ (∀ s, dag_run_id r = Some s → DAG_RUN_ID_PATTERN s = true)
  ∧ (∀ s, task_id r = Some s → TASK_ID_PATTERN s = true)
  ∧ route r ∈ [py "grid"; py "graph"; py "dag_run"; py "task"; py "log"; py "unknown"]
  ∧ (is_Some (try_number r) → route r = py "log").
Proof.
  intros (parsed & h & _ & _ & _ & _ & _ & Hp & Hroute)%parse_ok_inv.
  pose proof (route_of_valid _ _ _ _ _ _ _ Hroute) as (Hd & Hr & Ht & Hn).
  apply route_of_row in Hroute as (Hrow & _).
  repeat split; try done. rewrite Hrow. apply row_of_names.
Qed.

(** X8. The errors of [parse_airflow_ui_url]: a URL that [urlparse]
    refuses, a missing scheme, a scheme other than http and https, a
    missing hostname, a hostname no registered instance has, an
    instance key or an identifier that fails its pattern. The code of
    the error is NOT_FOUND for the unknown hostname and INVALID_INPUT
    in every other case. *)
Theorem parse_errors (reg : instances) (url : str) (e : AirflowToolError) :
  parse_airflow_ui_url reg url = Err e →
  (e = InvalidUrl url ∨ e = MissingScheme url ∨ (∃ s, e = BadScheme s)
   ∨ e = MissingHostname url ∨ (∃ h, e = UnknownHost h) ∨ (∃ k, e = InvalidInstance k)
   ∨ (∃ field value, e = InvalidIdentifier field value))
  ∧ (code e = NOT_FOUND ↔ ∃ h, e = UnknownHost h).
Proof.
  intros He.
  assert (Hcases : e = InvalidUrl url ∨ e = MissingScheme url ∨ (∃ s, e = BadScheme s)
    ∨ e = MissingHostname url ∨ (∃ h, e = UnknownHost h) ∨ (∃ k, e = InvalidInstance k)
    ∨ (∃ field value, e = InvalidIdentifier field value)).
  { unfold parse_airflow_ui_url in He.
    destruct (urlparse url) as [parsed|]; [|injection He as <-; by left].
    destruct (negb (truthy (lower (scheme parsed)))); [injection He as <-; right; by left|].
    destruct (negb (is_str "http" (lower (scheme parsed))
                    || is_str "https" (lower (scheme parsed))));
      [injection He as <-; right; right; left; by eexists|].
    destruct (negb (truthy (default [] (hostname parsed))));
      [injection He as <-; do 3 right; by left|].
    destruct (_resolve_instance_key_from_host reg (default [] (hostname parsed))) as [key|];
      [|injection He as <-; do 4 right; left; by eexists].
    destruct (negb (truthy key)) eqn:Ek;
      [injection He as <-; do 4 right; left; by eexists|].
    apply bind_err in He as [He|(key' & _ & He)].
    { unfold validate_instance_key in He. rewrite Ek in He.
      destruct (negb (INSTANCE_KEY_PATTERN key)); [|done].
      injection He as <-. do 5 right. left. by eexists. }
    apply bind_err in He as [He|([[[[? ?] ?] ?] ?] & _ & He)]; [|done].
    apply route_of_err in He as (f & v & ->). do 6 right. by eexists _, _. }
  split; [done|].
  destruct Hcases as [->|[->|[[? ->]|[->|[[? ->]|[[? ->]|(? & ? & ->)]]]]]]; cbn;
    split; try done; try (by intros [? [=]]); by eexists.
Qed.

End parse_properties.

Lemma parse_validated_witness :
  Validation.DAG_RUN_ID_PATTERN (Py.py "manual__2025-01-01T00:00:00+00:00") = true.
Proof.
  exact (proj1 (proj2 (proj2 (@parse_validated ascii_only UrlUtils.sample_registry
    (Py.py "https://airflow.prod.example.com/dags/d1/dagRuns/manual__2025-01-01T00%3A00%3A00%2B00%3A00")
    {| UrlUtils.instance := Py.py "prod"; UrlUtils.route := Py.py "dag_run";
       UrlUtils.dag_id := Some (Py.py "d1");
       UrlUtils.dag_run_id := Some (Py.py "manual__2025-01-01T00:00:00+00:00");
       UrlUtils.task_id := None; UrlUtils.try_number := None |} eq_refl)))
    (Py.py "manual__2025-01-01T00:00:00+00:00") eq_refl).
Defined.

Lemma parse_errors_witness :
  code (UnknownHost (Py.py "airflow.dev.example.com")) = NOT_FOUND
  ↔ ∃ h, UnknownHost (Py.py "airflow.dev.example.com") = UnknownHost h.
Proof.
  exact (proj2 (@parse_errors ascii_only UrlUtils.sample_registry
    (Py.py "https://airflow.dev.example.com/dags/d1/grid")
    (UnknownHost (Py.py "airflow.dev.example.com")) eq_refl)).
Defined.

Local Open Scope Z_scope.

Section resolve_properties.
Import Py Urllib Validation UrlUtils.
Context `{Unicode}.

Lemma resolve_ok_inv (reg : instances) (ui_url instance : option str) (r : ResolvedUrl) :
  resolve_and_validate reg ui_url instance = Ok r →
  (∃ cfg, (UrlUtils.instance r, cfg) ∈ reg)
  ∧ INSTANCE_KEY_PATTERN (UrlUtils.instance r) = true
  ∧ (given instance = true → UrlUtils.instance r = default [] instance).
Proof.
  assert (Hparse : ∀ url r', parse_airflow_ui_url reg url = Ok r' →
            (∃ cfg, (UrlUtils.instance r', cfg) ∈ reg)
            ∧ INSTANCE_KEY_PATTERN (UrlUtils.instance r') = true).
  { intros url r' (parsed & h & _ & _ & _ & _ & Hres & Hp & _)%parse_ok_inv.
    split; [|done]. apply resolve_in_some in Hres as (pre & cfg & post & -> & _).
    exists cfg. apply elem_of_app. right. by left. }
  unfold resolve_and_validate. intros Hr.
  apply bind_ok in Hr as (inst & Hinst & Hr).
  destruct (given instance) eqn:Hg.
  - destruct (validate_instance_key (default [] instance)) as [key|] eqn:Hk; [|done].
    apply validate_instance_key_inv in Hk as (-> & Ht & Hp).
    injection Hinst as <-. cbn [given] in Hr. rewrite Ht in Hr.
    destruct (given ui_url) eqn:Hu; cbn [andb negb] in Hr.
    + apply bind_ok in Hr as (parsed & Hparsed & Hr).
      change (default [] (Some (default [] instance))) with (default [] instance) in Hr.
      destruct (str_eqb (UrlUtils.instance parsed) (default [] instance)) eqn:E;
        cbn [negb] in Hr; [|done].
      injection Hr as <-. apply str_eqb_eq in E.
      destruct (Hparse _ _ Hparsed) as [? ?]. by repeat split.
    + change (default [] (Some (default [] instance))) with (default [] instance) in Hr.
      destruct (dict_get reg (default [] instance)) as [cfg|] eqn:Hd; [|done].
      injection Hr as <-. cbn. split; [|done]. exists cfg. by apply dict_get_elem_of.
  - injection Hinst as <-. rewrite Hg in Hr. rewrite andb_false_r in Hr. cbn [negb] in Hr.
    rewrite andb_true_r in Hr. destruct (given ui_url); cbn [andb] in Hr; [|done].
    destruct (Hparse _ _ Hr) as [? ?]. by repeat split.
Qed.

(** X9. A target that [resolve_and_validate] returns names a registered
    instance, under a key that matches the instance key pattern; when an
    instance was given, it is that instance. *)
Theorem resolve_registered (reg : instances) (ui_url instance : option str) (r : ResolvedUrl) :
  resolve_and_validate reg ui_url instance = Ok r →
  (∃ cfg, (UrlUtils.instance r, cfg) ∈ reg)
  ∧ INSTANCE_KEY_PATTERN (UrlUtils.instance r) = true
  ∧ (given instance = true → UrlUtils.instance r = default [] instance).
Proof. apply resolve_ok_inv. Qed.

End resolve_properties.

Lemma resolve_registered_witness :
  ∃ cfg, (Py.py "prod", cfg) ∈ UrlUtils.sample_registry.
Proof.
  exact (proj1 (@resolve_registered ascii_only UrlUtils.sample_registry None
    (Some (Py.py "prod"))
    {| UrlUtils.instance := Py.py "prod"; UrlUtils.route := Py.py "unknown";
       UrlUtils.dag_id := None; UrlUtils.dag_run_id := None;
       UrlUtils.task_id := None; UrlUtils.try_number := None |} eq_refl)).
Defined.

Local Open Scope Z_scope.

(** * The lines [_filter_logs] keeps *)

Section kept_lines.
Import Py Re TaskLogs.

Lemma keep_where_sublist (P : Z → bool) (lines : list str) :
  keep_where P lines `sublist_of` lines.
Proof.
  unfold keep_where, enumerate.
  etrans; [apply fmap_sublist, sublist_filter|].
  rewrite snd_zip; [done|]. rewrite length_seqZ. unfold len. lia.
Qed.

Lemma filter_sublist_mono {A} (P Q : A → Prop) `{∀ x, Decision (P x)} `{∀ x, Decision (Q x)}
    (l : list A) :
  (∀ x, P x → Q x) → filter P l `sublist_of` filter Q l.
Proof.
  intros HPQ. induction l as [|x l IH]; [done|].
  rewrite !filter_cons. destruct (decide (P x)) as [HP|HP].
  - rewrite decide_True by auto. by apply sublist_skip.
  - destruct (decide (Q x)); [by apply sublist_cons|done].
Qed.

Lemma keep_where_mono (P Q : Z → bool) (lines : list str) :
  (∀ j, P j = true → Q j = true) → keep_where P lines `sublist_of` keep_where Q lines.
Proof.
  intros HPQ. unfold keep_where. apply fmap_sublist, filter_sublist_mono.
  intros [j line]. apply HPQ.
Qed.

Lemma filter_iff_in {A} (P Q : A → Prop) `{∀ x, Decision (P x)} `{∀ x, Decision (Q x)}
    (l : list A) :
  (∀ x, x ∈ l → P x ↔ Q x) → filter P l = filter Q l.
Proof.
  induction l as [|x l IH]; [done|]. intros HPQ.
  rewrite !filter_cons, IH by (intros y Hy; apply HPQ; by right).
  destruct (decide (P x)) as [HP|HP].
  - by rewrite decide_True by (apply HPQ; [by left|done]).
  - rewrite decide_False; [done|]. intros HQ. apply HP, HPQ; [by left|done].
Qed.

Lemma filter_elem_of_sublist (l1 l2 : list Z) :
  l1 `sublist_of` l2 → NoDup l2 → filter (λ j, j ∈ l1) l2 = l1.
Proof.
  induction 1 as [|x l1 l2 Hs IH|x l1 l2 Hs IH]; intros Hnd; [done|..].
  - apply NoDup_cons in Hnd as [Hx Hnd].
    rewrite filter_cons_True by by left. f_equal. etrans; [|by apply IH].
    apply filter_iff_in. intros y Hy. split.
    + intros [->|?]%elem_of_cons; done.
    + by right.
  - apply NoDup_cons in Hnd as [Hx Hnd].
    rewrite filter_cons_False; [by apply IH|].
    intros Hin. apply Hx. by eapply elem_of_sublist.
Qed.

Section with_unicode.
Context `{Unicode}.

Lemma matched_indices_sublist (pattern : regex) (lines : list str) :
  matched_indices pattern lines `sublist_of` seqZ 0 (len lines).
Proof.
  unfold matched_indices.
  etrans; [apply fmap_sublist, sublist_filter|].
  rewrite fst_zip; [done|]. rewrite length_seqZ. unfold len. lia.
Qed.

Lemma in_window_zero (pattern : regex) (lines : list str) (j : Z) :
  in_window (len lines) 0 (matched_indices pattern lines) j = true
  ↔ j ∈ matched_indices pattern lines.
Proof.
  unfold in_window. rewrite existsb_exists. split.
  - intros (i & Hi%list_elem_of_In & [H1%Z.leb_le H2%Z.leb_le]%andb_true_iff).
    pose proof (elem_of_sublist _ _ _ Hi (matched_indices_sublist pattern lines)) as Hr.
    apply elem_of_seqZ in Hr. assert (j = i) as -> by lia. done.
  - intros Hj. exists j. split; [by apply list_elem_of_In|].
    pose proof (elem_of_sublist _ _ _ Hj (matched_indices_sublist pattern lines)) as Hr.
    apply elem_of_seqZ in Hr. apply andb_true_iff. split; apply Z.leb_le; lia.
Qed.

Lemma pick_matched_keep (pattern : regex) (lines : list str) :
  pick lines (matched_indices pattern lines)
  = keep_where (in_window (len lines) 0 (matched_indices pattern lines)) lines.
Proof.
  rewrite <- pick_filter. f_equal.
  rewrite <- (filter_elem_of_sublist _ _ (matched_indices_sublist pattern lines))
    at 1 by apply NoDup_seqZ.
  apply list_filter_iff. intros j. by rewrite in_window_zero.
Qed.

Lemma in_window_mono (n c c' : Z) (matched : list Z) (j : Z) :
  c ≤ c' → in_window n c matched j = true → in_window n c' matched j = true.
Proof.
  intros Hc. unfold in_window. rewrite !existsb_exists.
  intros (i & Hi & [H1%Z.leb_le H2%Z.leb_le]%andb_true_iff).
  exists i. split; [done|]. apply andb_true_iff. split; apply Z.leb_le; lia.
Qed.

(** The lines kept with a known level and a context that is not
    negative: those in the window of a match. *)
Lemma filter_lines_window (lines : list str) (level : str) (pattern : regex) (c : Z) :
  patterns_get level = Some pattern → 0 ≤ c →
  filter_lines lines (Some level) (Some c)
  = (keep_where (in_window (len lines) c (matched_indices pattern lines)) lines,
     len (matched_indices pattern lines)).
Proof.
  intros Hp Hc.
  destruct (decide (c ≠ 0 ∧ matched_indices pattern lines ≠ [])) as [[? ?]|Hplain].
  { by apply filter_lines_expanded. }
  rewrite (filter_lines_plain lines level pattern) by
    (done || (destruct (decide (c = 0)) as [->|?];
              [right; by left|right; right; destruct (matched_indices pattern lines); [done|];
               exfalso; apply Hplain; by split])).
  f_equal. rewrite <- pick_matched, pick_matched_keep.
  apply keep_where_ext. intros j _.
  destruct (decide (c = 0)) as [->|Hc0]; [done|].
  destruct (matched_indices pattern lines) as [|i m]; [done|].
  exfalso. apply Hplain. by split.
Qed.

(** X10. [_filter_logs] never reorders, repeats or invents a line: the
    text it returns is a prefix of the lines of a subsequence of the
    lines of the log, joined by line feeds; the whole of it when the
    text was not truncated, and it is truncated exactly when the joined
    lines take more than [max_bytes] bytes (for a budget that is not
    negative). [returned_lines] is the number of lines of that
    subsequence, counted before the byte cap. *)
Theorem filter_logs_subsequence (raw_log : str) (filter_level : option str)
    (context_lines tail_lines : option Z) (max_bytes : Z) :
  let '(text, truncated, st) :=
    _filter_logs raw_log filter_level context_lines tail_lines max_bytes in
  ∃ kept : list str,
    kept `sublist_of` splitlines raw_log
    ∧ text `prefix_of` join NL kept
    ∧ (truncated = false → text = join NL kept)
    ∧ (0 ≤ max_bytes → (truncated = true ↔ max_bytes < len (encode (join NL kept))))
    ∧ returned_lines st = len kept
    ∧ original_lines st = len (splitlines raw_log).
Proof.
  unfold _filter_logs. cbv zeta.
  assert (Hkept : ∀ lines, (filter_lines lines filter_level context_lines).1
                           `sublist_of` lines).
  { intros lines. unfold filter_lines.
    destruct filter_level as [level|]; [|done].
    destruct (truthy level); [|done].
    destruct (patterns_get level) as [pattern|]; [|done].
    assert (Hplain : pick lines (matched_indices pattern lines) `sublist_of` lines).
    { rewrite pick_matched. apply sublist_filter. }
    destruct context_lines as [c|]; [|done].
    destruct (negb (c =? 0) && truthy (matched_indices pattern lines)); [|done].
    cbn [fst]. rewrite sorted_expand, pick_filter. apply keep_where_sublist. }
  assert (Hcap : ∀ result, (size_cap result max_bytes).1 `prefix_of` result
                           ∧ ((size_cap result max_bytes).2 = false
                              → (size_cap result max_bytes).1 = result)
                           ∧ ((size_cap result max_bytes).2 = true
                              ↔ max_bytes < len (encode result))).
  { intros result. unfold size_cap.
    destruct (Z.ltb_spec max_bytes (len (encode result))) as [Hlt|Hge].
    - cbn [fst snd]. split; [|done]. unfold slice_to.
      destruct (decode_take_encode result (slice_bound (encode result) max_bytes))
        as (k & -> & _).
      apply prefix_take.
    - cbn [fst snd]. split; [done|]. split; [done|]. split; [done|lia]. }
  assert (Hcont : ∀ lines, lines `sublist_of` splitlines raw_log →
    let '(text, truncated, st) :=
      (let '(lines0, mc) := filter_lines lines filter_level context_lines in
       let '(result, truncated) := size_cap (join NL lines0) max_bytes in
       (result, truncated,
        Stats (len (encode result)) (len (splitlines raw_log)) (len lines0) mc)) in
    ∃ kept : list str,
      kept `sublist_of` splitlines raw_log
      ∧ text `prefix_of` join NL kept
      ∧ (truncated = false → text = join NL kept)
      ∧ (0 ≤ max_bytes → (truncated = true ↔ max_bytes < len (encode (join NL kept))))
      ∧ returned_lines st = len kept
      ∧ original_lines st = len (splitlines raw_log)).
  { intros lines Hl. specialize (Hkept lines).
    destruct (filter_lines lines filter_level context_lines) as [lines0 mc].
    specialize (Hcap (join NL lines0)).
    destruct (size_cap (join NL lines0) max_bytes) as [result truncated].
    cbn [fst snd] in *. exists lines0. destruct Hcap as (? & ? & ?).
    split; [by etrans|]. split; [done|]. split; [done|]. split; [done|]. done. }
  destruct tail_lines as [t|]; [|by apply Hcont].
  destruct (0 <=? t); [|by apply Hcont].
  destruct (t =? 0).
  - exists []. split; [apply sublist_nil_l|]. split; [done|]. split; [done|].
    split; [|done]. intros Hmb. split; [done|].
    change (len (encode (join NL []))) with 0. lia.
  - apply Hcont. unfold slice_from. apply sublist_drop.
Qed.

(** X11. More context never drops a line: with a known level, the
    lines kept under [context_lines = c] are a subsequence of the lines
    kept under a larger [context_lines]; the matching lines themselves
    (the case [c = 0]) are always among them; and [match_count] does not
    depend on the context. *)
Theorem context_monotone (lines : list str) (level : str) (pattern : regex) (c c' : Z) :
  patterns_get level = Some pattern → 0 ≤ c → c ≤ c' →
  (filter_lines lines (Some level) (Some c)).1
    `sublist_of` (filter_lines lines (Some level) (Some c')).1
  ∧ (filter_lines lines (Some level) (Some 0)).1
    = filter (λ line, search pattern line = true) lines
  ∧ (filter_lines lines (Some level) (Some c)).2
    = (filter_lines lines (Some level) (Some c')).2.
Proof.
  intros Hp Hc Hcc.
  rewrite !(filter_lines_window lines level pattern) by (done || lia). cbn [fst snd].
  split; [|split; [|done]].
  - apply keep_where_mono. intros j. by apply in_window_mono.
  - by rewrite <- pick_matched_keep, pick_matched.
Qed.

Lemma filter_logs_counts (raw_log : str) (filter_level : option str)
    (context_lines tail_lines : option Z) (max_bytes : Z) :
  (∀ c, context_lines = Some c → 0 ≤ c) →
  let st := (_filter_logs raw_log filter_level context_lines tail_lines max_bytes).2 in
  0 ≤ match_count st ∧ match_count st ≤ returned_lines st
  ∧ returned_lines st ≤ original_lines st.
Proof.
  intros Hc. cbv zeta.
  assert (Hcount : ∀ lines, 0 ≤ (filter_lines lines filter_level context_lines).2
                            ≤ len (filter_lines lines filter_level context_lines).1).
  { intros lines. pose proof (len_nonneg lines).
    destruct filter_level as [level|]; [|done].
    destruct (patterns_get level) as [pattern|] eqn:Hp.
    - assert (Hplain : 0 ≤ len (matched_indices pattern lines)
                ≤ len (filter (λ line, search pattern line = true) lines)).
      { unfold len. rewrite matched_indices_length. lia. }
      destruct context_lines as [c|].
      + specialize (Hc c eq_refl).
        pose proof (keep_where_mono
          (in_window (len lines) 0 (matched_indices pattern lines))
          (in_window (len lines) c (matched_indices pattern lines)) lines
          (λ j, in_window_mono (len lines) 0 c (matched_indices pattern lines) j Hc)) as Hs.
        apply sublist_length in Hs.
        rewrite <- pick_matched_keep, pick_matched in Hs.
        rewrite (filter_lines_window lines level pattern) by done. cbn [fst snd].
        unfold len in *. lia.
      + by rewrite (filter_lines_plain lines level pattern None) by (done || by left).
    - unfold filter_lines. rewrite Hp. by destruct (truthy level). }
  pose proof (returned_lines_le raw_log filter_level context_lines tail_lines max_bytes) as Hle.
  pose proof (len_nonneg (splitlines raw_log)) as Hn.
  revert Hle. unfold _filter_logs. cbv zeta.
  assert (Hcont : ∀ lines,
    let st := (let '(lines0, mc) := filter_lines lines filter_level context_lines in
               let '(result, truncated) := size_cap (join NL lines0) max_bytes in
               (result, truncated,
                Stats (len (encode result)) (len (splitlines raw_log)) (len lines0) mc)).2 in
    returned_lines st ≤ len (splitlines raw_log) →
    0 ≤ match_count st ∧ match_count st ≤ returned_lines st
    ∧ returned_lines st ≤ original_lines st).
  { intros lines. specialize (Hcount lines).
    destruct (filter_lines lines filter_level context_lines) as [lines0 mc].
    destruct (size_cap (join NL lines0) max_bytes). cbn in *. lia. }
  destruct tail_lines as [t|]; [|apply Hcont].
  destruct (0 <=? t); [|apply Hcont].
  destruct (t =? 0); [cbn; lia|apply Hcont].
Qed.

(** X12. The counters of [_filter_logs], when [context_lines] is not
    negative: [match_count] is not negative and not above
    [returned_lines], which is not above [original_lines]. *)
Theorem filter_logs_counters (raw_log : str) (filter_level : option str)
    (context_lines tail_lines : option Z) (max_bytes : Z) :
  (∀ c, context_lines = Some c → 0 ≤ c) →
  let st := (_filter_logs raw_log filter_level context_lines tail_lines max_bytes).2 in
  0 ≤ match_count st ∧ match_count st ≤ returned_lines st
  ∧ returned_lines st ≤ original_lines st.
Proof. apply filter_logs_counts. Qed.

End with_unicode.
End kept_lines.

Lemma filter_logs_subsequence_witness :
  ∃ kept : list Py.str,
    kept `sublist_of` Py.splitlines (Py.py "ERROR a" ++ Py.NL ++ Py.py "INFO b")
    ∧ Py.py "ERR" `prefix_of` Py.join Py.NL kept
    ∧ (3 < Py.len (Py.encode (Py.join Py.NL kept))).
Proof.
  destruct (@filter_logs_subsequence ascii_only
    (Py.py "ERROR a" ++ Py.NL ++ Py.py "INFO b") (Some (Py.py "error")) None None 3)
    as (kept & Hsub & Hpre & _ & Hiff & _).
  exists kept. split; [exact Hsub|]. split; [exact Hpre|].
  apply Hiff; [lia|reflexivity].
Defined.

Lemma context_monotone_witness :
  (@TaskLogs.filter_lines ascii_only [Py.py "start"; Py.py "ERROR boom"; Py.py "end"]
     (Some (Py.py "error")) (Some 0)).1
  `sublist_of`
  (@TaskLogs.filter_lines ascii_only [Py.py "start"; Py.py "ERROR boom"; Py.py "end"]
     (Some (Py.py "error")) (Some 1)).1.
Proof.
  refine (proj1 (@context_monotone ascii_only
    [Py.py "start"; Py.py "ERROR boom"; Py.py "end"] (Py.py "error") TaskLogs.pattern_error
    0 1 eq_refl _ _)); lia.
Defined.

Lemma filter_logs_counters_witness :
  let st := (@TaskLogs._filter_logs ascii_only
               (Py.py "start" ++ Py.NL ++ Py.py "ERROR boom" ++ Py.NL ++ Py.py "end")
               (Some (Py.py "error")) (Some 1) None 1000).2 in
  0 ≤ TaskLogs.match_count st ∧ TaskLogs.match_count st ≤ TaskLogs.returned_lines st
  ∧ TaskLogs.returned_lines st ≤ TaskLogs.original_lines st.
Proof.
  refine (@filter_logs_counters ascii_only
    (Py.py "start" ++ Py.NL ++ Py.py "ERROR boom" ++ Py.NL ++ Py.py "end")
    (Some (Py.py "error")) (Some 1) None 1000 _).
  intros c [= <-]. lia.
Defined.

Local Open Scope Z_scope.

(** * The pipeline of [get_task_instance_logs] *)

Section pipeline_properties.
Import Py Re TaskLogs.
Context `{Unicode}.

Lemma filter_logs_context_zero (raw_log : str) (filter_level : option str)
    (tail_lines : option Z) (max_bytes : Z) :
  _filter_logs raw_log filter_level (Some 0) tail_lines max_bytes
  = _filter_logs raw_log filter_level None tail_lines max_bytes.
Proof.
  unfold _filter_logs. cbv zeta.
  assert (Hfl : ∀ lines, filter_lines lines filter_level (Some 0)
                         = filter_lines lines filter_level None).
  { intros lines. unfold filter_lines. destruct filter_level as [level|]; [|done].
    destruct (truthy level); [|done]. by destruct (patterns_get level). }
  by rewrite !Hfl.
Qed.

(** X13. The filter pipeline clamps its numeric options: the
    [tail_lines] passed on lies in 0..100000 and [context_lines] in
    0..1000, unchanged when they were in that range. So a [tail_lines]
    that is zero or negative returns an empty log with all counters but
    [original_lines] zero; a [context_lines] that is zero or negative
    filters like no [context_lines]; and the counters always satisfy
    [0 <= match_count <= returned_lines <= original_lines]. *)
Theorem pipeline_clamps (log_text : str) (filter_level : option str)
    (context_lines tail_lines : option Z) (max_bytes : Z) :
  let p := filter_pipeline log_text filter_level context_lines tail_lines max_bytes in
  (∀ t, filters_tail_lines p = Some t → 0 ≤ t ≤ 100000)
  ∧ (∀ c, filters_context_lines p = Some c → 0 ≤ c ≤ 1000)
  ∧ (∀ t, tail_lines = Some t → 0 ≤ t ≤ 100000 → filters_tail_lines p = Some t)
  ∧ (∀ c, context_lines = Some c → 0 ≤ c ≤ 1000 → filters_context_lines p = Some c)
  ∧ (0 ≤ match_count (log_stats p) ∧ match_count (log_stats p) ≤ returned_lines (log_stats p)
     ∧ returned_lines (log_stats p) ≤ original_lines (log_stats p))
  ∧ (∀ t, tail_lines = Some t → t ≤ 0 →
       log p = [] ∧ truncated p = false ∧ bytes_returned (log_stats p) = 0
       ∧ returned_lines (log_stats p) = 0 ∧ match_count (log_stats p) = 0)
  ∧ (∀ c, context_lines = Some c → c ≤ 0 →
       let p0 := filter_pipeline log_text filter_level None tail_lines max_bytes in
       log p = log p0 ∧ truncated p = truncated p0 ∧ log_stats p = log_stats p0).
Proof.
  cbv zeta. unfold filter_pipeline.
  destruct (auto_tail log_text) as [text flag].
  split; [|split; [|split; [|split; [|split; [|split]]]]].
  - intros t. destruct (_filter_logs _ _ _ _ _) as [[? ?] ?]. cbn.
    destruct tail_lines as [t0|]; [|done]. cbn. intros [= <-]. lia.
  - intros c. destruct (_filter_logs _ _ _ _ _) as [[? ?] ?]. cbn.
    destruct context_lines as [c0|]; [|done]. cbn. intros [= <-]. lia.
  - intros t -> Ht. destruct (_filter_logs _ _ _ _ _) as [[? ?] ?]. cbn. f_equal. lia.
  - intros c -> Hc. destruct (_filter_logs _ _ _ _ _) as [[? ?] ?]. cbn. f_equal. lia.
  - pose proof (filter_logs_counts text filter_level (clamp 1000 context_lines)
      (clamp 100000 tail_lines) max_bytes) as Hcount.
    destruct (_filter_logs _ _ _ _ _) as [[? ?] ?]. cbn in *. apply Hcount.
    intros c. destruct context_lines as [c0|]; [|done]. cbn. intros [= <-]. lia.
  - intros t -> Ht. change (clamp 100000 (Some t)) with (Some (Z.max 0 (Z.min t 100000))).
    replace (Z.max 0 (Z.min t 100000)) with 0 by lia.
    unfold _filter_logs. cbv zeta. done.
  - intros c -> Hc. change (clamp 1000 (Some c)) with (Some (Z.max 0 (Z.min c 1000))).
    replace (Z.max 0 (Z.min c 1000)) with 0 by lia.
    rewrite filter_logs_context_zero.
    change (clamp 1000 None) with (@None Z).
    by destruct (_filter_logs _ _ _ _ _) as [[? ?] ?].
Qed.

End pipeline_properties.

Lemma pipeline_clamps_witness :
  TaskLogs.log (@TaskLogs.filter_pipeline ascii_only
    (Py.py "ERROR a" ++ Py.NL ++ Py.py "INFO b") None None (Some (-5)) 1000) = [].
Proof.
  refine (proj1 (proj1 (proj2 (proj2 (proj2 (proj2 (proj2 (@pipeline_clamps ascii_only
    (Py.py "ERROR a" ++ Py.NL ++ Py.py "INFO b") None None (Some (-5)) 1000))))))
    (-5) eq_refl _)).
  lia.
Defined.

Local Open Scope Z_scope.

(** * Host-segmented responses *)

Section segment_properties.
Import Py Re TaskLogs.

Lemma lstrip_idem (P : uchar → bool) (s : str) : lstrip P (lstrip P s) = lstrip P s.
Proof.
  induction s as [|c s IH]; [done|]. cbn [lstrip].
  destruct (P c) eqn:E; [done|]. cbn [lstrip]. by rewrite E.
Qed.

Lemma lstrip_snoc_keep (P : uchar → bool) (s : str) (c : uchar) :
  P c = false → lstrip P (s ++ [c]) = lstrip P s ++ [c].
Proof.
  intros Hc. induction s as [|x s IH]; cbn [app lstrip]; [by rewrite Hc|].
  by destruct (P x).
Qed.

Lemma rstrip_cons_keep (P : uchar → bool) (c : uchar) (s : str) :
  P c = false → rstrip P (c :: s) = c :: rstrip P s.
Proof.
  intros Hc. unfold rstrip. rewrite reverse_cons, lstrip_snoc_keep by done.
  by rewrite reverse_app.
Qed.

Lemma lstrip_rstrip (P : uchar → bool) (s : str) :
  lstrip P (rstrip P (lstrip P s)) = rstrip P (lstrip P s).
Proof.
  induction s as [|c s IH]; [done|]. cbn [lstrip].
  destruct (P c) eqn:E; [done|].
  rewrite rstrip_cons_keep by done. cbn [lstrip]. by rewrite E.
Qed.

Lemma rstrip_idem (P : uchar → bool) (s : str) : rstrip P (rstrip P s) = rstrip P s.
Proof. unfold rstrip. by rewrite reverse_involutive, lstrip_idem. Qed.

(** [strip] of a stripped string changes nothing. *)
Lemma strip_idem (P : uchar → bool) (s : str) : strip P (strip P s) = strip P s.
Proof. unfold strip. by rewrite lstrip_rstrip, rstrip_idem. Qed.

(** X14. [_normalize_log_host] never returns the empty string, and
    what it returns is normalized: applying it again changes nothing
    (the host is stripped of surrounding white space, and an absent or
    blank host is the token [unknown-host]). *)
Theorem normalize_log_host_idempotent (host : option str) :
  _normalize_log_host host ≠ []
  ∧ _normalize_log_host (Some (_normalize_log_host host)) = _normalize_log_host host
  ∧ strip isspace (_normalize_log_host host) = _normalize_log_host host.
Proof.
  assert (Hstrip : ∀ h, strip isspace (_normalize_log_host h) = _normalize_log_host h).
  { intros [h|]; [|done]. unfold _normalize_log_host. cbv zeta.
    destruct (truthy (strip isspace h)); [apply strip_idem|done]. }
  assert (Hne : ∀ h, truthy (_normalize_log_host h) = true).
  { intros [h|]; [|done]. unfold _normalize_log_host. cbv zeta.
    by destruct (truthy (strip isspace h)) eqn:E. }
  split; [|split; [|apply Hstrip]].
  - specialize (Hne host). by destruct (_normalize_log_host host).
  - unfold _normalize_log_host at 1. cbv zeta. by rewrite Hstrip, Hne.
Qed.

(** X15. [_flatten_log_segments] writes, for each segment in order, a
    divider line with the normalized host and then the text without its
    trailing line feeds, if it has any; one blank line separates two
    segments; and the result neither starts nor ends with a line feed. *)
Theorem flatten_log_segments_text (segments : list segment) :
  _flatten_log_segments segments
  = strip (is_ch "010") (join (NL ++ NL) (render_segment <$> segments))
  ∧ (∀ seg, render_segment seg
       = py "--- [" ++ _normalize_log_host (segment_host_text seg).1 ++ py "] ---"
         ++ (if truthy (default [] (segment_host_text seg).2)
             then NL ++ rstrip (is_ch "010") (default [] (segment_host_text seg).2)
             else []))
  ∧ strip (is_ch "010") (_flatten_log_segments segments) = _flatten_log_segments segments.
Proof.
  split; [apply flatten_log_segments_spec|]. split.
  - intros seg. unfold render_segment, divider. destruct (segment_host_text seg) as [h t].
    cbn [fst snd]. by rewrite <- !(assoc_L (++)).
  - unfold _flatten_log_segments. apply strip_idem.
Qed.

Section with_ast.
Context `{Ast}.

(** X16. [_coerce_log_text] raises exactly on a string that starts,
    after surrounding white space, with [[('] and on which
    [ast.literal_eval] raises TypeError, MemoryError or RecursionError;
    it raises that exception. Every other response is turned into a
    string. *)
Theorem coerce_log_text_raises_iff (resp : response) (e : exception) :
  _coerce_log_text resp = inl e
  ↔ ∃ s, resp = RStr s
         ∧ startswith (py "[('") (strip isspace s) = true
         ∧ literal_eval s = match e with
                            | TypeError => LitTypeError
                            | MemoryError => LitMemoryError
                            | RecursionError => LitRecursionError
                            end.
Proof.
  split.
  - destruct resp as [s| | | |]; try done. unfold _coerce_log_text.
    destruct (startswith (py "[('") (strip isspace s)) eqn:Es; [|done].
    destruct (literal_eval s) eqn:El; try done; intros [= <-]; by exists s.
  - intros (s & -> & Hs & Hl). unfold _coerce_log_text. rewrite Hs, Hl. by destruct e.
Qed.

(** X17. A response of bytes is decoded as UTF-8 with replacement and
    never raises: the encoding of a string gives the string back, and a
    byte that cannot start a character (here [0xFF]) becomes U+FFFD
    between the texts around it. *)
Theorem coerce_log_text_bytes (s t : str) :
  _coerce_log_text (RBytes (encode s)) = inr s
  ∧ _coerce_log_text (RBytes (encode s ++ [255%N] ++ encode t))
    = inr (s ++ [REPLACEMENT] ++ t).
Proof.
  assert (Happ : ∀ (a : str) (rest : bytes),
            decode Replace (encode a ++ rest) = a ++ decode Replace rest).
  { intros a rest. induction a as [|c a IH]; [done|].
    rewrite encode_cons, <- (assoc_L (++)), decode_char. by rewrite IH. }
  unfold _coerce_log_text. split; [by rewrite decode_encode|].
  rewrite Happ. cbn [app]. do 2 f_equal.
  change (decode Replace (255%N :: encode t)) with (REPLACEMENT :: decode Replace (encode t)).
  by rewrite decode_encode.
Qed.

End with_ast.
End segment_properties.

Lemma coerce_log_text_raises_iff_witness :
  @TaskLogs._coerce_log_text TaskLogs.ast_sample (TaskLogs.RStr (Py.py "[('h', {[]})]"))
  = inl TaskLogs.TypeError.
Proof.
  apply (proj2 (@coerce_log_text_raises_iff TaskLogs.ast_sample
    (TaskLogs.RStr (Py.py "[('h', {[]})]")) TaskLogs.TypeError)).
  exists (Py.py "[('h', {[]})]"). split; [reflexivity|]. split; reflexivity.
Defined.

Local Open Scope Z_scope.

(** * The request of [get_task_instance_logs] *)

Section request_properties.
Import Py Urllib Validation UrlUtils Common LogsTool.



Lemma or_else_given (a b : option str) : given a = true → or_else a b = a.
Proof. intros Ha. unfold or_else. by rewrite Ha. Qed.

Lemma log_identifiers_inv (resolved : ResolvedUrl) (dag_id dag_run_id task_id : option str)
    (try_number : option Z) (target : log_target) :
  log_identifiers resolved dag_id dag_run_id task_id try_number = inr target →
  or_else dag_id (UrlUtils.dag_id resolved) = Some (target_dag_id target)
  ∧ or_else dag_run_id (UrlUtils.dag_run_id resolved) = Some (target_dag_run_id target)
  ∧ or_else task_id (UrlUtils.task_id resolved) = Some (target_task_id target)
  ∧ match try_number with Some n => Some n | None => UrlUtils.try_number resolved end
    = Some (target_try_number target)
  ∧ DAG_ID_PATTERN (target_dag_id target) = true
  ∧ DAG_RUN_ID_PATTERN (target_dag_run_id target) = true
  ∧ TASK_ID_PATTERN (target_task_id target) = true.
Proof.
  unfold log_identifiers. cbv zeta.
  destruct (validate_dag_id _) as [d|] eqn:Ed; [|done].
  destruct (validate_dag_run_id _) as [r|] eqn:Er; [|done].
  destruct (validate_task_id _) as [t|] eqn:Et; [|done].
  apply validate_dag_id_ok in Ed as [-> Hd].
  apply validate_dag_run_id_ok in Er as [-> Hr].
  apply validate_task_id_ok in Et as [-> Ht].
  destruct (or_else dag_id (UrlUtils.dag_id resolved)) as [d|]; [|done].
  destruct (or_else dag_run_id (UrlUtils.dag_run_id resolved)) as [r|];
    [|by rewrite orb_true_r].
  destruct (or_else task_id (UrlUtils.task_id resolved)) as [t|];
    [|by rewrite orb_true_r].
  destruct (match try_number with Some n => Some n | None => UrlUtils.try_number resolved end)
    as [n|]; [|by rewrite orb_true_r].
  destruct (negb (given (Some d)) || negb (given (Some r)) || negb (given (Some t))
            || negb (bool_decide (is_Some (Some n)))); [done|].
  intros [= <-]. cbn. repeat split; auto.
Qed.

(** X18. The identifiers of a log request: a parameter that is given
    (not [None], not empty) takes precedence over the identifier of the
    resolved URL, which is used otherwise; a request that passes has all
    four identifiers, and each of the three names matches the pattern
    of its kind. *)
Theorem log_identifiers_precedence (resolved : ResolvedUrl)
    (dag_id dag_run_id task_id : option str) (try_number : option Z) (target : log_target) :
  log_identifiers resolved dag_id dag_run_id task_id try_number = inr target →
  (Some (target_dag_id target)
   = if given dag_id then dag_id else UrlUtils.dag_id resolved)
  ∧ (Some (target_dag_run_id target)
     = if given dag_run_id then dag_run_id else UrlUtils.dag_run_id resolved)
  ∧ (Some (target_task_id target)
     = if given task_id then task_id else UrlUtils.task_id resolved)
  ∧ (Some (target_try_number target)
     = match try_number with Some n => Some n | None => UrlUtils.try_number resolved end)
  ∧ DAG_ID_PATTERN (target_dag_id target) = true
  ∧ DAG_RUN_ID_PATTERN (target_dag_run_id target) = true
  ∧ TASK_ID_PATTERN (target_task_id target) = true.
Proof.
  intros (Hd & Hr & Ht & Hn & ? & ? & ?)%log_identifiers_inv.
  unfold or_else in *. by repeat split.
Qed.

Section with_unicode.
Context `{Unicode}.



End with_unicode.
End request_properties.

Lemma log_identifiers_precedence_witness :
  Some (Py.py "d2") = Some (Py.py "d2")
  ∧ Validation.TASK_ID_PATTERN (Py.py "t1") = true.
Proof.
  pose proof (LogsTool_precedence_instance := log_identifiers_precedence
    {| UrlUtils.instance := Py.py "stg"; UrlUtils.route := Py.py "log";
       UrlUtils.dag_id := Some (Py.py "d1"); UrlUtils.dag_run_id := Some (Py.py "r1");
       UrlUtils.task_id := Some (Py.py "t1"); UrlUtils.try_number := Some 2 |}
    (Some (Py.py "d2")) None (Some []) None
    {| LogsTool.target_dag_id := Py.py "d2"; LogsTool.target_dag_run_id := Py.py "r1";
       LogsTool.target_task_id := Py.py "t1"; LogsTool.target_try_number := 2 |} eq_refl).
  destruct LogsTool_precedence_instance as (Hd & _ & _ & _ & _ & _ & Ht).
  split; [exact Hd|exact Ht].
Defined.


Local Open Scope Z_scope.

(** * The level patterns, word by word *)

Section level_patterns.
Import Py Re TaskLogs.
Context `{Unicode}.

Lemma truthy_app {A} (l k : list A) : truthy (l ++ k) = truthy l || truthy k.
Proof. by destruct l, k. Qed.

Lemma truthy_bind_app {A B} (f : A → list B) (l k : list A) :
  truthy ((l ++ k) ≫= f) = truthy (l ≫= f) || truthy (k ≫= f).
Proof. by rewrite bind_app, truthy_app. Qed.

(** A match of [\b r \b]: a boundary, a match of [r], a boundary. *)
Lemma matches_word (r : regex) (prev : option uchar) (s : str) :
  matches (word r) prev s
  = if at_boundary prev s
    then matches r prev s ≫= (λ st, if at_boundary st.1 st.2 then [(st.1, st.2)] else [])
    else [].
Proof.
  unfold word. cbn [matches]. destruct (at_boundary prev s); [|done].
  cbn [mbind list_bind fst snd]. by rewrite app_nil_r.
Qed.

Lemma truthy_matches_alt (r1 r2 : regex) (prev : option uchar) (s : str) :
  truthy (matches (word (Alt r1 r2)) prev s)
  = truthy (matches (word r1) prev s) || truthy (matches (word r2) prev s).
Proof.
  rewrite !matches_word. destruct (at_boundary prev s); [|done].
  cbn [matches]. apply truthy_bind_app.
Qed.

Lemma search_from_alt (r1 r2 : regex) (prev : option uchar) (s : str) :
  search_from (word (Alt r1 r2)) prev s
  = search_from (word r1) prev s || search_from (word r2) prev s.
Proof.
  revert prev. induction s as [|c s IH]; intros prev.
  - cbn [search_from]. rewrite truthy_matches_alt. btauto.
  - cbn [search_from]. rewrite truthy_matches_alt, IH. btauto.
Qed.

(** [search] of an alternation between word boundaries: one of the
    alternatives is found. *)
Lemma search_alt (r1 r2 : regex) (line : str) :
  search (word (Alt r1 r2)) line = search (word r1) line || search (word r2) line.
Proof. apply search_from_alt. Qed.

(** X21. What each level keeps, word by word. A line is kept at
    "error" when it has one of the words ERROR, CRITICAL, FATAL,
    Exception, Traceback; at "warning" when it has WARN or WARNING, or
    ERROR, CRITICAL, FATAL; at "info" when it has INFO, WARN, ERROR or
    CRITICAL (each as a whole word, in any case). So a line with the
    word ERROR or CRITICAL is kept at every level, a line with FATAL at
    "error" and "warning", and a line with WARN at "warning" and
    "info". *)
Theorem level_patterns_by_word (line : str) :
  let has (w : string) := search (word (Lit w)) line in
  search pattern_error line
  = has "ERROR" || has "CRITICAL" || has "FATAL" || has "Exception" || has "Traceback"
  ∧ search pattern_warning line
    = search (word (Seq (Lit "WARN") (Opt (Lit "ING")))) line
      || has "ERROR" || has "CRITICAL" || has "FATAL"
  ∧ search pattern_info line = has "INFO" || has "WARN" || has "ERROR" || has "CRITICAL"
  ∧ (has "ERROR" || has "CRITICAL" = true →
       search pattern_error line = true ∧ search pattern_warning line = true
       ∧ search pattern_info line = true)
  ∧ (has "FATAL" = true →
       search pattern_error line = true ∧ search pattern_warning line = true)
  ∧ (has "WARN" = true → search pattern_info line = true).
Proof.
  cbv zeta. unfold pattern_error, pattern_warning, pattern_info.
  rewrite !search_alt.
  set (e := search (word (Lit "ERROR")) line).
  set (c := search (word (Lit "CRITICAL")) line).
  set (f := search (word (Lit "FATAL")) line).
  set (x := search (word (Lit "Exception")) line).
  set (t := search (word (Lit "Traceback")) line).
  set (w := search (word (Lit "WARN")) line).
  set (i := search (word (Lit "INFO")) line).
  set (w' := search (word (Seq (Lit "WARN") (Opt (Lit "ING")))) line).
  split; [btauto|]. split; [btauto|]. split; [btauto|].
  split; [|split].
  - intros [-> | ->]%orb_true_iff; repeat split; btauto.
  - intros ->. split; btauto.
  - intros ->. btauto.
Qed.

End level_patterns.

Lemma level_patterns_by_word_witness :
  @Re.search ascii_only TaskLogs.pattern_error (Py.py "job failed: CRITICAL disk full") = true
  ∧ @Re.search ascii_only TaskLogs.pattern_warning (Py.py "job failed: CRITICAL disk full")
    = true
  ∧ @Re.search ascii_only TaskLogs.pattern_info (Py.py "job failed: CRITICAL disk full") = true.
Proof.
  exact (proj1 (proj2 (proj2 (proj2 (@level_patterns_by_word ascii_only
    (Py.py "job failed: CRITICAL disk full"))))) eq_refl).
Defined.

Local Open Scope Z_scope.

Section tail_properties.
Import Py Re TaskLogs.
Context `{Unicode}.

Lemma slice_from_last {A} (t : Z) (l : list A) :
  0 < t → slice_from (- t) l = drop (length l - Z.to_nat t) l
          ∧ len (slice_from (- t) l) = Z.min t (len l).
Proof.
  intros Ht. unfold slice_from, slice_bound, len.
  destruct (Z.ltb_spec (- t) 0) as [_|?]; [|lia].
  assert (Z.to_nat (Z.max (Z.of_nat (length l) + - t) 0) = (length l - Z.to_nat t)%nat)
    as -> by lia.
  split; [done|]. rewrite length_drop. lia.
Qed.

(** X22. Tail extraction comes first: with [tail_lines = t > 0] the
    level filter and the context expansion see the last [t] lines of
    the log only (all of them when the log has fewer), so without a
    level [returned_lines] is the smaller of [t] and [original_lines],
    and with a level [match_count] counts matches among those lines. *)
Theorem tail_before_filter (raw_log : str) (filter_level : option str)
    (context_lines : option Z) (t max_bytes : Z) :
  0 < t →
  let lines := splitlines raw_log in
  let last := drop (length lines - Z.to_nat t) lines in
  let '(text, truncated, st) :=
    _filter_logs raw_log filter_level context_lines (Some t) max_bytes in
  len last = Z.min t (len lines)
  ∧ text = (size_cap (join NL (filter_lines last filter_level context_lines).1) max_bytes).1
  ∧ returned_lines st = len (filter_lines last filter_level context_lines).1
  ∧ match_count st = (filter_lines last filter_level context_lines).2
  ∧ original_lines st = len lines
  ∧ (filter_level = None → returned_lines st = Z.min t (original_lines st)
                           ∧ match_count st = 0).
Proof.
  intros Ht. cbv zeta. unfold _filter_logs. cbv zeta.
  destruct (Z.leb_spec 0 t) as [_|?]; [|lia].
  destruct (Z.eqb_spec t 0) as [?|_]; [lia|].
  destruct (slice_from_last t (splitlines raw_log) Ht) as [E Hlen].
  rewrite E in Hlen |- *.
  destruct (filter_lines _ filter_level context_lines) as [kept mc] eqn:Efl.
  cbn [fst snd].
  destruct (size_cap (join NL kept) max_bytes) as [result tr] eqn:Ecap. cbn [fst snd].
  split; [exact Hlen|]. split; [done|]. split; [done|]. split; [done|]. split; [done|].
  intros ->. cbn in Efl. injection Efl as <- <-. by rewrite Hlen.
Qed.

End tail_properties.

Lemma tail_before_filter_witness :
  TaskLogs.returned_lines
    (@TaskLogs._filter_logs ascii_only
       (Py.py "a" ++ Py.NL ++ Py.py "b" ++ Py.NL ++ Py.py "c") None None (Some 2) 1000).2
  = 2.
Proof.
  pose proof (@tail_before_filter ascii_only
    (Py.py "a" ++ Py.NL ++ Py.py "b" ++ Py.NL ++ Py.py "c") None None 2 1000 eq_refl) as Ht.
  cbv zeta in Ht.
  destruct (@TaskLogs._filter_logs ascii_only
    (Py.py "a" ++ Py.NL ++ Py.py "b" ++ Py.NL ++ Py.py "c") None None (Some 2) 1000)
    as [[text truncated] st] eqn:E.
  destruct Ht as (_ & _ & _ & _ & Horig & Hnone).
  destruct (Hnone eq_refl) as [Hr _]. cbn [snd]. rewrite Hr, Horig. reflexivity.
Defined.
